(** * mygit / app.py : movie-review catalog

    A shallow embedding of [src/app.py] and the properties of its
    aggregation step, its word-frequency summary, its start-up sequence and
    its two read handlers.

    Conventions.
    - A Python [str] is a [string] holding its UTF-8 bytes.
    - A value produced by [json.load], and a value handed to FastAPI as a
      response, is a [value].
    - A Python [float] is the rational number it denotes ([Q]); true division
      of two [int]s rounds the exact quotient to binary64 ([binary64]).
    - A raised exception is [Raise e]; code that raises and also touches the
      database, the console or the data file runs in the monad [IO], whose
      state survives an exception, as the process state does in Python. *)

From Stdlib Require Import String Ascii List ZArith QArith Qabs Lia Lqa Bool Arith.
From Stdlib Require Import Sorting.Sorted Permutation.
Import ListNotations.

Local Close Scope Q_scope.
Local Open Scope string_scope.
Local Open Scope list_scope.

(* ================================================================== *)
(** * Python values, exceptions and the exception monad *)
(* ================================================================== *)

Module Py.

(** The objects [json.load] builds and the objects the handlers return:
    [None], [bool], [int], [float], [str], [list], and [dict] with [str]
    keys, kept in insertion order. *)
#[local] Set Warnings "-register-all".
Inductive value : Type :=
| VNone
| VBool (b : bool)
| VInt (z : Z)
| VFloat (q : Q)
| VStr (s : string)
| VList (l : list value)
| VDict (d : list (string * value)).

(** The exceptions this program can meet. *)
Inductive exn : Type :=
| KeyError (key : string)
| TypeError (msg : string)
| AnalyzerError (msg : string)          (* raised inside konlpy / the JVM *)
| FileNotFoundError (path : string)
| JSONDecodeError (msg : string)
| OperationalError (msg : string)       (* sqlalchemy.exc.OperationalError *)
| StatementError (msg : string)         (* a parameter sqlite3 cannot bind *)
| OverflowError (msg : string)          (* an int sqlite3 cannot hold *)
| HTTPException (status_code : Z) (detail : string).

Inductive result (A : Type) : Type :=
| Ok (a : A)
| Raise (e : exn).
Arguments Ok {A} a.
Arguments Raise {A} e.

Definition bind {A B} (m : result A) (k : A -> result B) : result B :=
  match m with
  | Ok a => k a
  | Raise e => Raise e
  end.

Definition is_ok {A} (m : result A) : bool :=
  match m with Ok _ => true | Raise _ => false end.

(** [str(e)], the text of the diagnostic an uncaught exception prints after
    its class name.  [KeyError] prints the [repr] of the missing key. *)
Definition message (e : exn) : string :=
  match e with
  | KeyError key => "'" ++ key ++ "'"
  | TypeError msg | AnalyzerError msg | JSONDecodeError msg
  | OperationalError msg | StatementError msg | OverflowError msg => msg
  | FileNotFoundError path => "[Errno 2] No such file or directory: '" ++ path ++ "'"
  | HTTPException status_code detail => detail
  end.

Fixpoint lookup (key : string) (d : list (string * value)) : option value :=
  match d with
  | [] => None
  | (k, v) :: d' => if String.eqb k key then Some v else lookup key d'
  end.

(** [obj[key]] for a [str] key. *)
Definition getitem (obj : value) (key : string) : result value :=
  match obj with
  | VDict d =>
      match lookup key d with
      | Some v => Ok v
      | None => Raise (KeyError key)
      end
  | VList _ => Raise (TypeError "list indices must be integers or slices, not str")
  | VStr _ => Raise (TypeError "string indices must be integers, not 'str'")
  | VNone | VBool _ | VInt _ | VFloat _ =>
      Raise (TypeError "object is not subscriptable")
  end.

(** The elements a [for] loop or a comprehension draws from [obj]: the items
    of a list, the keys of a dict, the characters of a string (here one
    one-byte [str] per byte: every element is a [str] either way, and the
    string is empty in the model exactly when it is empty in Python). *)
Definition iter (obj : value) : result (list value) :=
  match obj with
  | VList l => Ok l
  | VDict d => Ok (map (fun kv => VStr (fst kv)) d)
  | VStr s => Ok (map (fun c => VStr (String c EmptyString)) (list_ascii_of_string s))
  | VNone | VBool _ | VInt _ | VFloat _ => Raise (TypeError "object is not iterable")
  end.

(** [obj == s] for a [str] literal [s]: a value that is not a [str] compares
    unequal. *)
Definition eq_str (obj : value) (s : string) : bool :=
  match obj with
  | VStr t => String.eqb t s
  | _ => false
  end.

(** [sep.join(words)] *)
Definition join (sep : string) (words : list string) : string :=
  String.concat sep words.

End Py.

Import Py.

Declare Scope py_scope.
Delimit Scope py_scope with py.
Notation "x <- m ;; k" := (Py.bind m (fun x => k))
  (at level 61, m at next level, right associativity) : py_scope.
Local Open Scope py_scope.

(* ================================================================== *)
(** * Floating point: the value of [a / b] on two [int]s *)
(* ================================================================== *)

Module Float.

(** Nearest integer to [num / den] ([den > 0]), ties to the even one. *)
Definition round_half_even (num den : Z) : Z :=
  let q := (num / den)%Z in
  let r := (num mod den)%Z in
  match (2 * r ?= den)%Z with
  | Lt => q
  | Gt => (q + 1)%Z
  | Eq => if Z.even q then q else (q + 1)%Z
  end.

(** [|a| / b] scaled by [2^-e], as a fraction of two integers. *)
Definition scaled (a b e : Z) : Z * Z :=
  (Z.abs a * 2 ^ Z.max 0 (- e), b * 2 ^ Z.max 0 e)%Z.

(** The exponent [e] of the unit in the last place of [|a| / b]: the one
    with [2^52 <= |a| / (b * 2^e) < 2^53]. *)
Definition ulp_exponent (a b : Z) : Z :=
  let e1 := (Z.log2 (Z.abs a) - Z.log2 b - 53)%Z in
  let '(n, d) := scaled a b e1 in
  if (2 ^ 53 * d <=? n)%Z then (e1 + 1)%Z else e1.

(** The binary64 number nearest to the rational [x] (round to nearest, ties
    to even, 53 significant bits).  The exponent range is left unbounded:
    the result is the IEEE one for [2^-1022 <= |x| < 2^1024], which covers
    every quotient of two list lengths. *)
Definition binary64 (x : Q) : Q :=
  let a := Qnum x in
  let b := Zpos (Qden x) in
  if (a =? 0)%Z then 0%Q
  else
    let e := ulp_exponent a b in
    let '(n, d) := scaled a b e in
    let m := round_half_even n d in
    Qred (Qmake (Z.sgn a * m * 2 ^ Z.max 0 e) (Z.to_pos (2 ^ Z.max 0 (- e)))).

(** [a / b] for [a = len(xs)], [b = len(ys)], [b > 0]: CPython's true
    division of two [int]s is correctly rounded. *)
Definition truediv (a b : nat) : Q :=
  binary64 (Qmake (Z.of_nat a) (Pos.of_nat b)).

End Float.

(* ================================================================== *)
(** * [collections.Counter] *)
(* ================================================================== *)

Module Counter.

(** A [Counter] is a [dict] from element to count; a [dict] keeps its keys
    in the order of their first insertion. *)
Definition t := list (string * nat).

(** [c[w] += 1]: a key already present keeps its place, a new key goes to
    the end. *)
Fixpoint incr (w : string) (c : t) : t :=
  match c with
  | [] => [(w, 1)]
  | (k, i) :: c' => if String.eqb k w then (k, S i) :: c' else (k, i) :: incr w c'
  end.

(** [Counter(words)] counts the elements from left to right. *)
Definition of_list (words : list string) : t :=
  fold_left (fun c w => incr w c) words [].

Definition get (w : string) (c : t) : nat :=
  match find (fun kv => String.eqb (fst kv) w) c with
  | Some kv => snd kv
  | None => 0
  end.

(** One step of [sorted(items, key=itemgetter(1), reverse=True)], a stable
    sort: [x] stood before every element of [l], so it goes before the first
    element whose count is not greater than its own. *)
Fixpoint insert_desc (x : string * nat) (l : t) : t :=
  match l with
  | [] => [x]
  | y :: l' => if (snd y <=? snd x)%nat then x :: l else y :: insert_desc x l'
  end.

Definition sorted_desc (c : t) : t := fold_right insert_desc [] c.

(** [c.most_common(n)] is [heapq.nlargest(n, c.items(), key=itemgetter(1))],
    which is [sorted(c.items(), key=itemgetter(1), reverse=True)[:n]] for
    [n > 0] and the empty list for [n <= 0]. *)
Definition most_common (n : Z) (c : t) : t :=
  firstn (Z.to_nat n) (sorted_desc c).

End Counter.

(* ================================================================== *)
(** * The text pipeline of app.py *)
(* ================================================================== *)

(** The two library calls of [preprocess_text]:
    [re.sub(r'[^\w\s]', '', text)] and [Okt().pos(text, stem=True)], which
    returns (word, part-of-speech) pairs or raises. *)
Class Okt : Type := {
  re_sub_nonword : string -> string;
  okt_pos : string -> result (list (string * string))
}.

Section TextPipeline.

Context {okt : Okt}.

(** [pos in ['Noun', 'Adjective', 'Verb']] *)
Definition kept_pos (pos : string) : bool :=
  existsb (String.eqb pos) ["Noun"; "Adjective"; "Verb"].

(** app.py, [preprocess_text] (lines 57-65).  [re.sub] raises [TypeError] on
    an argument that is not a [str]. *)
Definition preprocess_text (text : value) : result (list string) :=
  match text with
  | VStr s =>
      let text := re_sub_nonword s in
      tokens <- okt_pos text ;;
      Ok (map fst (filter (fun wp => kept_pos (snd wp)) tokens))
  | _ => Raise (TypeError "expected string or bytes-like object")
  end.

(** The loop of [get_top_words] (lines 68-70): [all_words] is extended with
    the tokens of each review in turn. *)
Fixpoint extend_all (all_words : list string) (reviews : list value)
  : result (list string) :=
  match reviews with
  | [] => Ok all_words
  | review :: rest =>
      text <- getitem review "리뷰내용" ;;
      tokens <- preprocess_text text ;;
      extend_all (all_words ++ tokens) rest
  end.

(** The words [get_top_words] joins (line 72, before [', '.join]). *)
Definition top_words (reviews : list value) (n : Z) : result (list string) :=
  all_words <- extend_all [] reviews ;;
  let word_counts := Counter.of_list all_words in
  Ok (map fst (Counter.most_common n word_counts)).

(** app.py, [get_top_words] (lines 67-72). *)
Definition get_top_words (reviews : list value) (n : Z) : result string :=
  words <- top_words reviews n ;;
  Ok (join ", " words).

(** [[review for review in reviews if review['감정'] == label]] *)
Fixpoint reviews_with (label : string) (reviews : list value)
  : result (list value) :=
  match reviews with
  | [] => Ok []
  | review :: rest =>
      sentiment <- getitem review "감정" ;;
      tail <- reviews_with label rest ;;
      Ok (if eq_str sentiment label then review :: tail else tail)
  end.

(** The dict [process_movie_data] returns.  A ratio is the [float] of the
    division, or the [int] [0] of the [else] branch; both are stored in a
    [Float] column, so one rational field holds either. *)
Record Processed : Type := {
  positive_summary : string;
  negative_summary : string;
  positive_ratio : Q;
  negative_ratio : Q
}.

(** Lines 75-90 of [process_movie_data], on the elements of
    [movie_data['리뷰']]. *)
Definition aggregate (reviews : list value) : result Processed :=
  positive_reviews <- reviews_with "긍정" reviews ;;
  negative_reviews <- reviews_with "부정" reviews ;;
  positive_summary <- get_top_words positive_reviews 10 ;;
  negative_summary <- get_top_words negative_reviews 10 ;;
  let total_reviews := (length positive_reviews + length negative_reviews)%nat in
  let positive_ratio :=
    if (0 <? total_reviews)%nat
    then Float.truediv (length positive_reviews) total_reviews else 0%Q in
  let negative_ratio :=
    if (0 <? total_reviews)%nat
    then Float.truediv (length negative_reviews) total_reviews else 0%Q in
  Ok {| positive_summary := positive_summary;
        negative_summary := negative_summary;
        positive_ratio := positive_ratio;
        negative_ratio := negative_ratio |}.

(** app.py, [process_movie_data] (lines 74-90). *)
Definition process_movie_data (movie_data : value) : result Processed :=
  field <- getitem movie_data "리뷰" ;;
  reviews <- iter field ;;
  aggregate reviews.

End TextPipeline.

(* ================================================================== *)
(** * The database: tables, rows and sessions *)
(* ================================================================== *)

(** A row of table [movies] (class [Movie], lines 21-36).  A column holds
    the Python object read back from it.  SQLite's coercion of a mistyped
    value by column affinity is not modelled: a field is read back as it was
    written, which is what happens to a [str] in a [String] column and to an
    [int] in the [Integer] column. *)
Module Movie.
Record t : Type := {
  id : Z;
  title : value;
  poster_url : value;
  age_limit : value;
  running_time : value;
  release_date : value;
  synopsis : value;
  recommended_movies : value;
  genre : value;
  rating : value;
  audience : value
}.

(** The keyword arguments of the constructor call [Movie(...)] of
    lines 105-114. *)
Record obj : Type := {
  o_title : value;
  o_poster_url : value;
  o_running_time : value;
  o_release_date : value;
  o_synopsis : value;
  o_genre : value;
  o_rating : value;
  o_audience : value
}.
End Movie.

(** A row of table [reviews] (class [Review], lines 38-47). *)
Module Review.
Record t : Type := {
  id : Z;
  classification : string;
  ratio : Q;
  summary : string;
  movie_id : Z
}.

(** The keyword arguments of [Review(...)], lines 118-129. *)
Record obj : Type := {
  o_classification : string;
  o_ratio : Q;
  o_summary : string;
  o_movie_id : Z
}.
End Review.

Module Db.

(** The SQLite file: each table is absent ([None]) or holds its committed
    rows in rowid order.  A missing file is a store with no table. *)
Record Store : Type := {
  movies : option (list Movie.t);
  reviews : option (list Review.t)
}.

(** [data.json] as [open] and [json.load] find it. *)
Inductive File : Type :=
| Missing
| Malformed (msg : string)
| Parsed (data : value).

(** What the process can observe and change. *)
Record World : Type := {
  data_file : File;
  store : Store;
  open_sessions : nat;          (* sessions created and not yet closed *)
  stdout : list string          (* lines printed, oldest first *)
}.

(** A computation that may raise and may change the world; the world it
    leaves behind is there whether it raised or not. *)
Definition IO (A : Type) : Type := World -> result A * World.

Definition ret {A} (a : A) : IO A := fun w => (Ok a, w).

Definition raise {A} (e : exn) : IO A := fun w => (Raise e, w).

Definition bind {A B} (m : IO A) (k : A -> IO B) : IO B :=
  fun w =>
    match m w with
    | (Ok a, w') => k a w'
    | (Raise e, w') => (Raise e, w')
    end.

Definition lift {A} (r : result A) : IO A := fun w => (r, w).

Definition print (line : string) : IO unit :=
  fun w => (Ok tt, {| data_file := data_file w; store := store w;
                      open_sessions := open_sessions w;
                      stdout := stdout w ++ [line] |}).

Definition get_store : IO Store := fun w => (Ok (store w), w).

Definition put_store (s : Store) : IO unit :=
  fun w => (Ok tt, {| data_file := data_file w; store := s;
                      open_sessions := open_sessions w;
                      stdout := stdout w |}).

(** An object handed to [db.add] and not yet flushed. *)
Inductive pending : Type :=
| PMovie (m : Movie.obj)
| PReview (r : Review.obj).

(** A [Session]: the objects added since the last flush, and the rows its
    open transaction has inserted and not yet committed. *)
Record Session : Type := {
  added : list pending;
  tx_movies : list Movie.t;
  tx_reviews : list Review.t
}.

(** [SessionLocal()] *)
Definition SessionLocal : IO Session :=
  fun w => (Ok {| added := []; tx_movies := []; tx_reviews := [] |},
            {| data_file := data_file w; store := store w;
               open_sessions := S (open_sessions w);
               stdout := stdout w |}).

(** [db.close()]: the transaction still open is rolled back with the session
    value itself; the handle is given back. *)
Definition close (db : Session) : IO unit :=
  fun w => (Ok tt, {| data_file := data_file w; store := store w;
                      open_sessions := pred (open_sessions w);
                      stdout := stdout w |}).

(** [db.add(obj)] *)
Definition add (db : Session) (o : pending) : Session :=
  {| added := added db ++ [o];
     tx_movies := tx_movies db; tx_reviews := tx_reviews db |}.

(** The value sqlite3 receives for a parameter: it binds [None], [int]
    (so [bool]), [float] and [str], refuses a [list] or a [dict], and raises
    [OverflowError] for an [int] that does not fit in 64 bits. *)
Definition bind_param (v : value) : result value :=
  match v with
  | VList _ | VDict _ =>
      Raise (StatementError "Error binding parameter: type is not supported")
  | VBool b => Ok (VInt (if b then 1 else 0))
  | VInt z =>
      if ((-9223372036854775808 <=? z) && (z <=? 9223372036854775807))%Z
      then Ok v
      else Raise (OverflowError "Python int too large to convert to SQLite INTEGER")
  | _ => Ok v
  end.

(** The rowid SQLite gives a new row: one more than the largest in the
    table, whatever its sign, and 1 in an empty table. *)
Definition next_id (ids : list Z) : Z :=
  match ids with
  | [] => 1%Z
  | id :: rest => (fold_right Z.max id rest + 1)%Z
  end.

(** [INSERT INTO movies ...] for one object; [age_limit] and
    [recommended_movies] take their column default.  The row holds the bound
    values as they are, which is what SQLite stores for a value of the type
    of its column.  The conversions SQLite makes by column affinity for a
    value of another type (an [int] written to a [String] column is read
    back as a [str]) are outside the model: statements on the column values
    of imported rows are made for records with metadata of the column
    types. *)
Definition insert_movie (rows : list Movie.t) (m : Movie.obj)
  : result Movie.t :=
  title <- bind_param (Movie.o_title m) ;;
  poster_url <- bind_param (Movie.o_poster_url m) ;;
  running_time <- bind_param (Movie.o_running_time m) ;;
  release_date <- bind_param (Movie.o_release_date m) ;;
  synopsis <- bind_param (Movie.o_synopsis m) ;;
  genre <- bind_param (Movie.o_genre m) ;;
  rating <- bind_param (Movie.o_rating m) ;;
  audience <- bind_param (Movie.o_audience m) ;;
  Ok {| Movie.id := next_id (map Movie.id rows);
        Movie.title := title;
        Movie.poster_url := poster_url;
        Movie.age_limit := VStr "없음";
        Movie.running_time := running_time;
        Movie.release_date := release_date;
        Movie.synopsis := synopsis;
        Movie.recommended_movies := VStr "없음";
        Movie.genre := genre;
        Movie.rating := rating;
        Movie.audience := audience |}.

Definition insert_review (rows : list Review.t) (r : Review.obj) : Review.t :=
  {| Review.id := next_id (map Review.id rows);
     Review.classification := Review.o_classification r;
     Review.ratio := Review.o_ratio r;
     Review.summary := Review.o_summary r;
     Review.movie_id := Review.o_movie_id r |}.

Definition pending_movies (l : list pending) : list Movie.obj :=
  flat_map (fun o => match o with PMovie m => [m] | PReview _ => [] end) l.

Definition pending_reviews (l : list pending) : list Review.obj :=
  flat_map (fun o => match o with PReview r => [r] | PMovie _ => [] end) l.

(** The movie INSERTs of a flush, in the order the objects were added;
    [tx] holds the rows of this transaction so far. *)
Fixpoint flush_movies (table : option (list Movie.t)) (tx : list Movie.t)
  (l : list Movie.obj) : result (list Movie.t) :=
  match l with
  | [] => Ok tx
  | m :: l' =>
      match table with
      | None => Raise (OperationalError "no such table: movies")
      | Some rows =>
          row <- insert_movie (rows ++ tx) m ;;
          flush_movies table (tx ++ [row]) l'
      end
  end.

Fixpoint flush_reviews (table : option (list Review.t)) (tx : list Review.t)
  (l : list Review.obj) : result (list Review.t) :=
  match l with
  | [] => Ok tx
  | r :: l' =>
      match table with
      | None => Raise (OperationalError "no such table: reviews")
      | Some rows =>
          flush_reviews table (tx ++ [insert_review (rows ++ tx) r]) l'
      end
  end.

(** [db.flush()]: the unit of work inserts the added movies, then the added
    reviews, which refer to them. *)
Definition flush (db : Session) : IO Session :=
  fun w =>
    let r :=
      tx_m <- flush_movies (movies (store w)) (tx_movies db)
                (pending_movies (added db)) ;;
      tx_r <- flush_reviews (reviews (store w)) (tx_reviews db)
                (pending_reviews (added db)) ;;
      Ok {| added := []; tx_movies := tx_m; tx_reviews := tx_r |} in
    (r, w).

(** [movie.id] once [movie] has been added and flushed: the key of the row
    it became, the last movie row of the transaction. *)
Definition flushed_id (db : Session) : Z :=
  match rev (tx_movies db) with
  | m :: _ => Movie.id m
  | [] => 0%Z
  end.

Definition append_rows {A} (table : option (list A)) (tx : list A)
  : option (list A) :=
  match table with
  | Some rows => Some (rows ++ tx)
  | None => None
  end.

(** [db.commit()]: flush, then make the rows of the transaction part of the
    store. *)
Definition commit (db : Session) : IO Session :=
  bind (flush db) (fun db =>
  bind get_store (fun s =>
  bind (put_store {| movies := append_rows (movies s) (tx_movies db);
                     reviews := append_rows (reviews s) (tx_reviews db) |})
       (fun _ =>
  ret {| added := []; tx_movies := []; tx_reviews := [] |}))).

(** [db.query(Movie).all()] *)
Definition query_movies (db : Session) : IO (list Movie.t) :=
  bind get_store (fun s =>
  match movies s with
  | Some rows => ret (rows ++ tx_movies db)
  | None => raise (OperationalError "no such table: movies")
  end).

(** [db.query(Review).all()], before any filter *)
Definition query_reviews (db : Session) : IO (list Review.t) :=
  bind get_store (fun s =>
  match reviews s with
  | Some rows => ret (rows ++ tx_reviews db)
  | None => raise (OperationalError "no such table: reviews")
  end).

End Db.

Import Db.

Declare Scope io_scope.
Delimit Scope io_scope with io.
Notation "x <~ m ;; k" := (Db.bind m (fun x => k))
  (at level 61, m at next level, right associativity) : io_scope.
Notation "m >> k" := (Db.bind m (fun _ => k))
  (at level 61, right associativity) : io_scope.
Local Open Scope io_scope.

(* ================================================================== *)
(** * Start-up, import and the two handlers of app.py *)
(* ================================================================== *)

(** [data_file_path], lines 93-94 *)
Definition data_file_path : string := "data.json".

(** Lines 97-98: [open(data_file_path)] and [json.load(f)]. *)
Definition read_data : IO value :=
  fun w =>
    match data_file w with
    | Missing => (Raise (FileNotFoundError data_file_path), w)
    | Malformed msg => (Raise (JSONDecodeError msg), w)
    | Parsed data => (Ok data, w)
    end.

(** [Base.metadata.create_all(bind=engine)]: every table that is missing is
    created, empty. *)
Definition create_all : IO unit :=
  s <~ get_store ;;
  put_store {| movies := Some (match movies s with Some rows => rows | None => [] end);
               reviews := Some (match reviews s with Some rows => rows | None => [] end) |}.

(** [inspector.has_table("movies")] *)
Definition has_movies_table : IO bool :=
  s <~ get_store ;;
  ret (match movies s with Some _ => true | None => false end).

(** app.py, [create_tables] (lines 49-55). *)
Definition create_tables : IO unit :=
  exists_ <~ has_movies_table ;;
  if negb exists_ then
    create_all >>
    print "Tables created."
  else
    print "Tables already exist. Skipping creation.".

Section App.

Context {okt : Okt}.

(** The body of the loop of [load_and_process_data] (lines 103-131). *)
Definition import_movie (db : Session) (movie_data : value) : IO Session :=
  processed_data <~ lift (process_movie_data movie_data) ;;
  title <~ lift (getitem movie_data "영화명") ;;
  poster_url <~ lift (getitem movie_data "포스터") ;;
  running_time <~ lift (getitem movie_data "상영시간") ;;
  release_date <~ lift (getitem movie_data "개봉년도") ;;
  synopsis <~ lift (getitem movie_data "줄거리") ;;
  genre <~ lift (getitem movie_data "장르") ;;
  rating <~ lift (getitem movie_data "평점") ;;
  audience <~ lift (getitem movie_data "관객수") ;;
  let movie :=
    {| Movie.o_title := title;
       Movie.o_poster_url := poster_url;
       Movie.o_running_time := running_time;
       Movie.o_release_date := release_date;
       Movie.o_synopsis := synopsis;
       Movie.o_genre := genre;
       Movie.o_rating := rating;
       Movie.o_audience := audience |} in
  let db := add db (PMovie movie) in
  db <~ flush db ;;
  let positive_review :=
    {| Review.o_classification := "긍정";
       Review.o_ratio := positive_ratio processed_data;
       Review.o_summary := positive_summary processed_data;
       Review.o_movie_id := flushed_id db |} in
  let negative_review :=
    {| Review.o_classification := "부정";
       Review.o_ratio := negative_ratio processed_data;
       Review.o_summary := negative_summary processed_data;
       Review.o_movie_id := flushed_id db |} in
  let db := add db (PReview positive_review) in
  let db := add db (PReview negative_review) in
  ret db.

(** [for movie_data in data: ...] (line 102) *)
Fixpoint import_movies (db : Session) (data : list value) : IO Session :=
  match data with
  | [] => ret db
  | movie_data :: rest =>
      db <~ import_movie db movie_data ;;
      import_movies db rest
  end.

(** app.py, [load_and_process_data] (lines 96-134). *)
Definition load_and_process_data : IO unit :=
  data <~ read_data ;;
  db <~ SessionLocal ;;
  items <~ lift (iter data) ;;
  db <~ import_movies db items ;;
  db <~ commit db ;;
  close db.

(** The start-up block (lines 173-175), up to the call that starts the
    server. *)
Definition main : IO unit :=
  create_tables >>
  load_and_process_data.

End App.

(** app.py, [get_movies] (lines 136-141). *)
Definition get_movies : IO value :=
  db <~ SessionLocal ;;
  movies <~ query_movies db ;;
  close db >>
  ret (VList (map (fun movie =>
                     VDict [("id", VInt (Movie.id movie));
                            ("title", Movie.title movie);
                            ("poster_url", Movie.poster_url movie)])
                  movies)).

(** The dict under ["movie"] in the response of [get_movie]
    (lines 154-163). *)
Definition movie_json (movie : Movie.t) : value :=
  VDict [("id", VInt (Movie.id movie));
         ("title", Movie.title movie);
         ("poster_url", Movie.poster_url movie);
         ("age_limit", Movie.age_limit movie);
         ("running_time", Movie.running_time movie);
         ("release_date", Movie.release_date movie);
         ("synopsis", Movie.synopsis movie);
         ("recommended_movies", Movie.recommended_movies movie)].

(** One element of the list under ["reviews"] (lines 165-169). *)
Definition review_json (review : Review.t) : value :=
  VDict [("classification", VStr (Review.classification review));
         ("ratio", VFloat (Review.ratio review));
         ("summary", VStr (Review.summary review))].

(** app.py, [get_movie] (lines 143-171). *)
Definition get_movie (movie_id : Z) : IO value :=
  db <~ SessionLocal ;;
  rows <~ query_movies db ;;
  match find (fun m => (Movie.id m =? movie_id)%Z) rows with
  | None => raise (HTTPException 404 "Movie not found")
  | Some movie =>
      rows <~ query_reviews db ;;
      let reviews := filter (fun r => (Review.movie_id r =? movie_id)%Z) rows in
      close db >>
      ret (VDict [("movie", movie_json movie);
                  ("reviews", VList (map review_json reviews))])
  end.

(* ================================================================== *)
(** * A stand-in analyser, to run the program on concrete data *)
(* ================================================================== *)

Module Demo.

(** The ASCII characters that [[^\w\s]] matches; every byte of a multi-byte
    character is kept, as Hangul syllables are word characters. *)
Definition ascii_punct (c : ascii) : bool :=
  let n := nat_of_ascii c in
  ((33 <=? n) && (n <=? 47) || (58 <=? n) && (n <=? 64) ||
   (91 <=? n) && (n <=? 94) || (n =? 96) || (123 <=? n) && (n <=? 126))%nat.

Definition strip (s : string) : string :=
  string_of_list_ascii (filter (fun c => negb (ascii_punct c)) (list_ascii_of_string s)).

(** The words of [s] between spaces; [cur] is the word being read, in
    reverse. *)
Fixpoint split (cur : list ascii) (s : list ascii) : list string :=
  let flush := match cur with
               | [] => []
               | _ => [string_of_list_ascii (rev cur)]
               end in
  match s with
  | [] => flush
  | c :: s' =>
      if Ascii.eqb c " " then flush ++ split [] s' else split (c :: cur) s'
  end.

Definition entries : list (string * string) :=
  [("영화", "Noun"); ("리뷰", "Noun"); ("번째", "Noun"); ("연기", "Noun");
   ("배우", "Noun"); ("음악", "Noun");
   ("첫", "Modifier"); ("두", "Modifier"); ("정말", "Adverb"); ("너무", "Adverb");
   ("좋다", "Adjective"); ("지루하다", "Adjective"); ("보다", "Verb")].

Fixpoint tag (w : string) (l : list (string * string)) : option string :=
  match l with
  | [] => None
  | (k, p) :: l' => if String.eqb k w then Some p else tag w l'
  end.

(** Tags each word from [entries]; a word outside it cannot be analysed. *)
Fixpoint pos (ws : list string) : result (list (string * string)) :=
  match ws with
  | [] => Ok []
  | w :: ws' =>
      match tag w entries with
      | None => Raise (AnalyzerError ("cannot analyse: " ++ w))
      | Some p => tl <- pos ws' ;; Ok ((w, p) :: tl)
      end
  end.

Definition okt : Okt :=
  {| re_sub_nonword := strip;
     okt_pos := fun text => pos (split [] (list_ascii_of_string text)) |}.

(** A review record as [json.load] builds it. *)
Definition review (sentiment text : string) : value :=
  VDict [("리뷰내용", VStr text); ("감정", VStr sentiment)].

(** A movie record with every metadata key. *)
Definition movie (title : string) (reviews : list value) : value :=
  VDict [("영화명", VStr title); ("포스터", VStr "poster.jpg");
         ("상영시간", VStr "120분"); ("개봉년도", VStr "2019");
         ("줄거리", VStr "줄거리"); ("장르", VStr "드라마");
         ("평점", VStr "9.0"); ("관객수", VInt 1000);
         ("리뷰", VList reviews)].

(** A fresh process: the data file is there, the database file is not. *)
Definition fresh (data : value) : World :=
  {| data_file := Parsed data;
     store := {| movies := None; reviews := None |};
     open_sessions := 0;
     stdout := [] |}.

(** A review record without its text. *)
Definition no_text (sentiment : string) : value :=
  VDict [("감정", VStr sentiment)].

(** A process started on a database whose tables exist and are empty. *)
Definition empty_tables (data : value) : World :=
  {| data_file := Parsed data;
     store := {| movies := Some []; reviews := Some [] |};
     open_sessions := 0;
     stdout := ["Tables created."] |}.

(** A data file of one movie with one review of each label. *)
Definition sample : value :=
  VList [movie "기생충" [review "긍정" "연기 좋다"; review "부정" "음악 지루하다"]].

(** The rows [sample] becomes. *)
Definition stored_movie : Movie.t :=
  {| Movie.id := 1; Movie.title := VStr "기생충";
     Movie.poster_url := VStr "poster.jpg"; Movie.age_limit := VStr "없음";
     Movie.running_time := VStr "120분"; Movie.release_date := VStr "2019";
     Movie.synopsis := VStr "줄거리"; Movie.recommended_movies := VStr "없음";
     Movie.genre := VStr "드라마"; Movie.rating := VStr "9.0";
     Movie.audience := VInt 1000 |}.

Definition stored_reviews : list Review.t :=
  [{| Review.id := 1; Review.classification := "긍정"; Review.ratio := 1 # 2;
      Review.summary := "연기, 좋다"; Review.movie_id := 1 |};
   {| Review.id := 2; Review.classification := "부정"; Review.ratio := 1 # 2;
      Review.summary := "음악, 지루하다"; Review.movie_id := 1 |}].

(** The world after the first start-up on [sample]. *)
Definition after_import : World := snd (@main okt (fresh sample)).

(** Reviews of a movie, one of them with a third label. *)
Definition mixed : list value :=
  [review "중립" "음악"; review "긍정" "영화 좋다"].

End Demo.

(* ================================================================== *)
(** * Vocabulary of the properties *)
(* ================================================================== *)

(** [review['감정'] == label], for a review that has the key. *)
Definition has_label (label : string) (review : value) : bool :=
  match getitem review "감정" with
  | Ok sentiment => eq_str sentiment label
  | Raise _ => false
  end.

(** The reviews [process_movie_data] counts: one of its two labels. *)
Definition counted (review : value) : bool :=
  has_label "긍정" review || has_label "부정" review.

(** The sentiment label a review carries, when it is a [str]. *)
Definition label_of (review : value) : option string :=
  match getitem review "감정" with
  | Ok (VStr s) => Some s
  | _ => None
  end.

(** What [review['리뷰내용']] yields for each review carrying [label], in
    order. *)
Definition texts_of (label : string) (reviews : list value)
  : list (result value) :=
  map (fun review => getitem review "리뷰내용") (filter (has_label label) reviews).

(** Position of the first occurrence of [w] in [l] ([length l] if none). *)
Fixpoint first_index (w : string) (l : list string) : nat :=
  match l with
  | [] => 0
  | x :: l' => if String.eqb x w then 0 else S (first_index w l')
  end.

(** Number of occurrences of [w] in the token stream. *)
Definition frequency (stream : list string) (w : string) : nat :=
  count_occ string_dec stream w.

(** [w1] is ranked before [w2]: it is more frequent, or as frequent and
    first seen earlier. *)
Definition ranks_before (stream : list string) (w1 w2 : string) : Prop :=
  frequency stream w2 < frequency stream w1 \/
  (frequency stream w1 = frequency stream w2 /\
   first_index w1 stream < first_index w2 stream).

(** [sub in s] *)
Fixpoint contains (s sub : string) : bool :=
  String.prefix sub s ||
  match s with
  | EmptyString => false
  | String _ s' => contains s' sub
  end.

(** The two ratios add up to 1.0 within 1e-9, as real numbers. *)
Definition sums_to_one (p : Processed) : Prop :=
  (Qabs (positive_ratio p + negative_ratio p - 1) <= 1 # 1000000000)%Q.

(** The same for the [float] Python computes as
    [positive_ratio + negative_ratio]. *)
Definition float_sums_to_one (p : Processed) : Prop :=
  (Qabs (Float.binary64 (positive_ratio p + negative_ratio p) - 1)
   <= 1 # 1000000000)%Q.

(** [w] with one more session open. *)
Definition with_session (w : World) : World :=
  {| data_file := data_file w; store := store w;
     open_sessions := S (open_sessions w); stdout := stdout w |}.

(** The tokens of one review, as the loop of [get_top_words] obtains
    them. *)
Definition review_tokens {okt : Okt} (review : value) : result (list string) :=
  text <- getitem review "리뷰내용" ;; preprocess_text text.

(** The state of a counter that has counted [stream]: one entry per
    distinct token, in order of first occurrence, holding the token's
    frequency. *)
Definition counts_of (stream : list string) (c : Counter.t) : Prop :=
  NoDup (map fst c) /\
  (forall k, In k (map fst c) <-> In k stream) /\
  Forall (fun kv => snd kv = frequency stream (fst kv)) c /\
  StronglySorted (fun a b => first_index a stream < first_index b stream)
    (map fst c).

(** [ranks_before] on the entries of a counter. *)
Definition entry_before (stream : list string) (a b : string * nat) : Prop :=
  snd b < snd a \/
  (snd a = snd b /\ first_index (fst a) stream < first_index (fst b) stream).

(* ================================================================== *)
(** * Vocabulary of the properties of the import and the handlers *)
(* ================================================================== *)

(** The keys [load_and_process_data] reads from a movie record to build the
    [Movie] object (lines 106-113), in the order it reads them. *)
Definition metadata_keys : list string :=
  ["영화명"; "포스터"; "상영시간"; "개봉년도"; "줄거리"; "장르"; "평점"; "관객수"].

(** The largest rowid in the table, 0 for an empty table: the rowid before
    the next one given out. *)
Definition max_id (ids : list Z) : Z :=
  match ids with
  | [] => 0%Z
  | id :: rest => fold_right Z.max id rest
  end.

(** The [n] rowids given out after [base]: [base + 1], ..., [base + n]. *)
Definition ids_from (base : Z) (n : nat) : list Z :=
  map (fun k => (base + Z.of_nat k)%Z) (seq 1 n).

(** The columns of a review row other than its key. *)
Definition review_content (r : Review.t) : string * Q * string * Z :=
  (Review.classification r, Review.ratio r, Review.summary r, Review.movie_id r).

Definition obj_content (r : Review.obj) : string * Q * string * Z :=
  (Review.o_classification r, Review.o_ratio r, Review.o_summary r,
   Review.o_movie_id r).

(** The contents of the two review rows of the movie with key [movie_id]
    whose reviews aggregate to [p]. *)
Definition summary_rows (movie_id : Z) (p : Processed)
  : list (string * Q * string * Z) :=
  [("긍정", positive_ratio p, positive_summary p, movie_id);
   ("부정", negative_ratio p, negative_summary p, movie_id)].

(** Column value [v] is what sqlite3 stores for [movie_data[key]]. *)
Definition stored_as (movie_data : value) (key : string) (v : value) : Prop :=
  exists x, getitem movie_data key = Ok x /\ bind_param x = Ok v.

(** Row [m] holds the metadata of [movie_data], and the column defaults. *)
Definition movie_matches (movie_data : value) (m : Movie.t) : Prop :=
  stored_as movie_data "영화명" (Movie.title m) /\
  stored_as movie_data "포스터" (Movie.poster_url m) /\
  stored_as movie_data "상영시간" (Movie.running_time m) /\
  stored_as movie_data "개봉년도" (Movie.release_date m) /\
  stored_as movie_data "줄거리" (Movie.synopsis m) /\
  stored_as movie_data "장르" (Movie.genre m) /\
  stored_as movie_data "평점" (Movie.rating m) /\
  stored_as movie_data "관객수" (Movie.audience m) /\
  Movie.age_limit m = VStr "없음" /\
  Movie.recommended_movies m = VStr "없음".

(** A value a [String] column gives back as it was written: a [str], or
    [None] for SQL NULL. *)
Definition text_or_null (v : value) : bool :=
  match v with
  | VStr _ | VNone => true
  | _ => false
  end.

(** A value the [Integer] column gives back as it was written. *)
Definition int_or_null (v : value) : bool :=
  match v with
  | VInt _ | VNone => true
  | _ => false
  end.

Definition typed_at (movie_data : value) (key : string) (ok : value -> bool)
  : bool :=
  match getitem movie_data key with
  | Ok v => ok v
  | Raise _ => true
  end.

(** The metadata of [movie_data] has the types of the columns it goes to:
    a [str] or [null] for the seven [String] columns, an [int] or [null]
    for [audience].  SQLite stores such values unchanged; a value of another
    type it would convert by the affinity of the column. *)
Definition well_typed (movie_data : value) : bool :=
  forallb (fun key => typed_at movie_data key text_or_null)
    ["영화명"; "포스터"; "상영시간"; "개봉년도"; "줄거리"; "장르"; "평점"]
  && typed_at movie_data "관객수" int_or_null.

(** Row [m] holds the metadata of [movie_data] as the record has it, and
    the column defaults. *)
Definition holds_metadata (movie_data : value) (m : Movie.t) : Prop :=
  getitem movie_data "영화명" = Ok (Movie.title m) /\
  getitem movie_data "포스터" = Ok (Movie.poster_url m) /\
  getitem movie_data "상영시간" = Ok (Movie.running_time m) /\
  getitem movie_data "개봉년도" = Ok (Movie.release_date m) /\
  getitem movie_data "줄거리" = Ok (Movie.synopsis m) /\
  getitem movie_data "장르" = Ok (Movie.genre m) /\
  getitem movie_data "평점" = Ok (Movie.rating m) /\
  getitem movie_data "관객수" = Ok (Movie.audience m) /\
  Movie.age_limit m = VStr "없음" /\
  Movie.recommended_movies m = VStr "없음".

(** The table whose rowids are [ids] can take [n] more rows under
    consecutive rowids: the largest rowid SQLite gives out is [2^63 - 1]. *)
Definition rowids_left (ids : list Z) (n : nat) : Prop :=
  (max_id ids + Z.of_nat n < 9223372036854775808)%Z.

(** [process_movie_data movie_data] returns [p]. *)
Definition processed_as {okt : Okt} (movie_data : value) (p : Processed) : Prop :=
  process_movie_data movie_data = Ok p.

(** Keys are unique in both tables, and every review row refers to a movie
    row. *)
Definition consistent (ms : list Movie.t) (rs : list Review.t) : Prop :=
  NoDup (map Movie.id ms) /\
  NoDup (map Review.id rs) /\
  Forall (fun r => In (Review.movie_id r) (map Movie.id ms)) rs.

(** One element of the list [get_movies] returns (line 141). *)
Definition movie_entry (movie : Movie.t) : value :=
  VDict [("id", VInt (Movie.id movie));
         ("title", Movie.title movie);
         ("poster_url", Movie.poster_url movie)].

(** The element of ["reviews"] in the response of [get_movie] for a review
    row with the given contents. *)
Definition content_json (c : string * Q * string * Z) : value :=
  match c with
  | (classification, ratio, summary, _) =>
      VDict [("classification", VStr classification);
             ("ratio", VFloat ratio);
             ("summary", VStr summary)]
  end.

(** The world differs from [w] at most in the number of open sessions. *)
Definition same_data (w w' : World) : Prop :=
  data_file w' = data_file w /\ store w' = store w /\ stdout w' = stdout w.

(* ================================================================== *)
(** * Rounding error of the ratios *)
(* ================================================================== *)

Section FloatFacts.

Local Open Scope Z_scope.

Lemma round_half_even_error (n d : Z) :
  0 < d -> 2 * Z.abs (Float.round_half_even n d * d - n) <= d.
Proof.
  intros Hd. unfold Float.round_half_even.
  pose proof (Z.div_mod n d ltac:(lia)) as Hdm.
  pose proof (Z.mod_pos_bound n d Hd) as Hr.
  set (q := n / d) in *. set (r := n mod d) in *.
  destruct (Z.compare_spec (2 * r) d) as [He | Hl | Hg];
    [destruct (Z.even q)| |]; nia.
Qed.

Lemma scaled_pos (a b e : Z) :
  0 < a -> 0 < b ->
  0 < fst (Float.scaled a b e) /\ 0 < snd (Float.scaled a b e).
Proof.
  intros Ha Hb. unfold Float.scaled; simpl.
  rewrite Z.abs_eq by lia.
  assert (0 < 2 ^ Z.max 0 (- e)) by (apply Z.pow_pos_nonneg; lia).
  assert (0 < 2 ^ Z.max 0 e) by (apply Z.pow_pos_nonneg; lia).
  nia.
Qed.

Lemma scaled_first (a b : Z) :
  0 < a -> 0 < b ->
  let e1 := Z.log2 a - Z.log2 b - 53 in
  2 ^ 52 * snd (Float.scaled a b e1) <= fst (Float.scaled a b e1).
Proof.
  intros Ha Hb e1. unfold Float.scaled; simpl fst; simpl snd.
  rewrite Z.abs_eq by lia.
  destruct (Z.log2_spec a Ha) as [Hla _].
  destruct (Z.log2_spec b Hb) as [_ Hlb].
  pose proof (Z.log2_nonneg a) as Hna.
  pose proof (Z.log2_nonneg b) as Hnb.
  set (la := Z.log2 a) in *. set (lb := Z.log2 b) in *.
  set (k1 := Z.max 0 (- e1)). set (k2 := Z.max 0 e1).
  assert (Hk : la + k1 = 53 + lb + k2) by (unfold k1, k2, e1; lia).
  assert (Hk1 : 0 <= k1) by (unfold k1; lia).
  assert (Hk2 : 0 <= k2) by (unfold k2; lia).
  assert (Hp1 : 0 < 2 ^ k1) by (apply Z.pow_pos_nonneg; lia).
  assert (Hp2 : 0 < 2 ^ k2) by (apply Z.pow_pos_nonneg; lia).
  assert (Hlow : 2 ^ (la + k1) <= a * 2 ^ k1).
  { rewrite Z.pow_add_r by lia. nia. }
  assert (Hup : 2 ^ 52 * (b * 2 ^ k2) <= 2 ^ (53 + lb + k2)).
  { replace (53 + lb + k2) with (52 + (Z.succ lb + k2)) by lia.
    rewrite (Z.pow_add_r 2 52) by lia.
    rewrite (Z.pow_add_r 2 (Z.succ lb)) by lia.
    apply Z.mul_le_mono_nonneg_l; [lia|]. nia. }
  rewrite Hk in Hlow. lia.
Qed.

Lemma scaled_ulp (a b : Z) :
  0 < a -> 0 < b ->
  let e := Float.ulp_exponent a b in
  2 ^ 52 * snd (Float.scaled a b e) <= fst (Float.scaled a b e).
Proof.
  intros Ha Hb. unfold Float.ulp_exponent.
  rewrite (Z.abs_eq a) by lia.
  pose proof (scaled_first a b Ha Hb) as H1. cbv zeta in H1.
  set (e1 := Z.log2 a - Z.log2 b - 53) in *.
  destruct (Float.scaled a b e1) as [n1 d1] eqn:E1.
  destruct (2 ^ 53 * d1 <=? n1) eqn:C; cbv zeta.
  - apply Z.leb_le in C.
    unfold Float.scaled in *. simpl fst; simpl snd.
    injection E1 as En1 Ed1. rewrite Z.abs_eq in * by lia.
    destruct (Z_le_gt_dec 0 e1) as [Hge | Hlt].
    + rewrite Z.max_l in * by lia. rewrite Z.max_r in Ed1 by lia.
      rewrite (Z.max_l 0 (- (e1 + 1))) by lia.
      rewrite (Z.max_r 0 (e1 + 1)) by lia.
      replace (e1 + 1) with (Z.succ e1) by lia. rewrite Z.pow_succ_r by lia.
      rewrite Z.pow_0_r in *. lia.
    + rewrite Z.max_r in En1 by lia. rewrite Z.max_l in Ed1 by lia.
      rewrite (Z.max_r 0 (- (e1 + 1))) by lia.
      rewrite (Z.max_l 0 (e1 + 1)) by lia.
      replace (- e1) with (Z.succ (- (e1 + 1))) in En1 by lia.
      rewrite Z.pow_succ_r in En1 by lia.
      rewrite Z.pow_0_r in *. lia.
  - rewrite E1. exact H1.
Qed.

Local Open Scope Q_scope.

Lemma binary64_error (a : Z) (b : positive) :
  (0 <= a)%Z ->
  Qabs (Float.binary64 (a # b) - (a # b)) <= (a # b) * (1 # 2 ^ 53).
Proof.
  intros Ha. unfold Float.binary64. cbn [Qnum Qden].
  destruct (Z.eqb_spec a 0) as [-> | Hnz].
  - apply Qabs_Qle_condition. unfold Qle, Qopp, Qminus, Qplus, Qmult; simpl. lia.
  - assert (Ha' : (0 < a)%Z) by lia.
    assert (Hb : (0 < Z.pos b)%Z) by lia.
    pose proof (scaled_ulp a (Z.pos b) Ha' Hb) as Hs. cbv zeta in Hs.
    pose proof (scaled_pos a (Z.pos b) (Float.ulp_exponent a (Z.pos b)) Ha' Hb)
      as [Hn Hd].
    set (e := Float.ulp_exponent a (Z.pos b)) in *.
    unfold Float.scaled in *. cbv beta iota zeta. cbv beta iota delta [fst snd] in Hs, Hn, Hd.
    rewrite Z.abs_eq in * by lia.
    rewrite Z.sgn_pos by lia.
    set (K1 := (2 ^ Z.max 0 (- e))%Z) in *.
    set (K2 := (2 ^ Z.max 0 e)%Z) in *.
    pose proof (round_half_even_error (a * K1) (Z.pos b * K2) Hd) as Hm.
    set (m := Float.round_half_even (a * K1) (Z.pos b * K2)) in *.
    assert (HK1 : (0 < K1)%Z) by (apply Z.pow_pos_nonneg; lia).
    rewrite Qred_correct.
    apply Qabs_Qle_condition.
    unfold Qle, Qopp, Qminus, Qplus, Qmult; cbn [Qnum Qden].
    rewrite !Pos2Z.inj_mul, Z2Pos.id by exact HK1.
    change (Qnum (- (a # b))) with (- a)%Z.
    change (QDen (- (a # b))) with (Z.pos b).
    rewrite Pos2Z.inj_pow.
    set (X := (m * (Z.pos b * K2) - a * K1)%Z) in *.
    assert (HX : (- (a * K1) <= X * 2 ^ 53 <= a * K1)%Z) by lia.
    replace ((1 * m * K2 * Z.pos b + - a * K1) * (Z.pos b * Z.pos 2 ^ Z.pos 53))%Z
      with ((X * 2 ^ 53) * Z.pos b)%Z by (unfold X; ring).
    split; nia.
Qed.

Lemma binary64_close (x : Q) :
  0 <= x ->
  - (x * (1 # 9007199254740992)) <= Float.binary64 x - x
    /\ Float.binary64 x - x <= x * (1 # 9007199254740992).
Proof.
  intros Hx. destruct x as [a b].
  assert (Ha : (0 <= a)%Z) by (unfold Qle in Hx; simpl in Hx; lia).
  apply Qabs_Qle_condition.
  exact (binary64_error a b Ha).
Qed.

Lemma share_sum (p n : nat) :
  (0 < p + n)%nat ->
  (Z.of_nat p # Pos.of_nat (p + n)) + (Z.of_nat n # Pos.of_nat (p + n)) == 1.
Proof.
  intros H. unfold Qeq, Qplus; cbn [Qnum Qden].
  rewrite Pos2Z.inj_mul.
  assert (E : Z.pos (Pos.of_nat (p + n)) = (Z.of_nat p + Z.of_nat n)%Z).
  { rewrite <- Nat2Z.inj_add.
    destruct (p + n)%nat as [|k] eqn:K; [lia|].
    rewrite <- K. rewrite <- (Nat2Pos.id (p + n)) at 2 by lia.
    now rewrite positive_nat_Z. }
  rewrite E. ring.
Qed.

Lemma share_nonneg (p t : nat) : 0 <= Z.of_nat p # Pos.of_nat t.
Proof. unfold Qle; simpl. lia. Qed.

Lemma truediv_sum (p n : nat) :
  (0 < p + n)%nat ->
  Qabs (Float.truediv p (p + n) + Float.truediv n (p + n) - 1)
    <= 1 # 1000000000.
Proof.
  intros H. unfold Float.truediv.
  pose proof (share_sum p n H) as Hs.
  pose proof (binary64_close _ (share_nonneg p (p + n))) as [L1 U1].
  pose proof (binary64_close _ (share_nonneg n (p + n))) as [L2 U2].
  pose proof (share_nonneg p (p + n)) as N1.
  pose proof (share_nonneg n (p + n)) as N2.
  set (x1 := Z.of_nat p # Pos.of_nat (p + n)) in *.
  set (x2 := Z.of_nat n # Pos.of_nat (p + n)) in *.
  apply Qabs_Qle_condition. split; lra.
Qed.

Lemma truediv_sum_rounded (p n : nat) :
  (0 < p + n)%nat ->
  Qabs (Float.binary64 (Float.truediv p (p + n) + Float.truediv n (p + n)) - 1)
    <= 1 # 1000000000.
Proof.
  intros H. unfold Float.truediv.
  pose proof (share_sum p n H) as Hs.
  pose proof (binary64_close _ (share_nonneg p (p + n))) as [L1 U1].
  pose proof (binary64_close _ (share_nonneg n (p + n))) as [L2 U2].
  pose proof (share_nonneg p (p + n)) as N1.
  pose proof (share_nonneg n (p + n)) as N2.
  set (x1 := Z.of_nat p # Pos.of_nat (p + n)) in *.
  set (x2 := Z.of_nat n # Pos.of_nat (p + n)) in *.
  set (f1 := Float.binary64 x1) in *. set (f2 := Float.binary64 x2) in *.
  assert (Hf : 0 <= f1 + f2) by lra.
  pose proof (binary64_close _ Hf) as [L3 U3].
  apply Qabs_Qle_condition. split; lra.
Qed.

End FloatFacts.

(* ================================================================== *)
(** * Partition and aggregation *)
(* ================================================================== *)

Section AggregateFacts.

Context {okt : Okt}.

Lemma reviews_with_filter (label : string) (reviews l : list value) :
  reviews_with label reviews = Ok l -> l = filter (has_label label) reviews.
Proof.
  revert l. induction reviews as [|r rs IH]; simpl; intros l H.
  - now inversion H.
  - unfold has_label. destruct (getitem r "감정") as [s|e]; simpl in *; [|discriminate].
    destruct (reviews_with label rs) as [tl|e]; simpl in *; [|discriminate].
    inversion H; subst. rewrite (IH tl eq_refl). reflexivity.
Qed.

Lemma reviews_with_labelled (label : string) (reviews l : list value) :
  reviews_with label reviews = Ok l ->
  Forall (fun r => is_ok (getitem r "감정") = true) reviews.
Proof.
  revert l. induction reviews as [|r rs IH]; simpl; intros l H; constructor.
  - destruct (getitem r "감정"); [reflexivity | discriminate].
  - destruct (getitem r "감정"); simpl in H; [|discriminate].
    destruct (reviews_with label rs) as [tl|e]; simpl in H; [|discriminate].
    now apply (IH tl).
Qed.

Lemma reviews_with_total (label : string) (reviews : list value) :
  Forall (fun r => is_ok (getitem r "감정") = true) reviews ->
  reviews_with label reviews = Ok (filter (has_label label) reviews).
Proof.
  induction 1 as [|r rs Hr _ IH]; simpl; [reflexivity|].
  unfold has_label. destruct (getitem r "감정") as [s|e]; [|discriminate].
  simpl. rewrite IH. reflexivity.
Qed.

(** What [aggregate] computes, when it returns. *)
Lemma aggregate_ok (reviews : list value) (p : Processed) :
  aggregate reviews = Ok p ->
  let pos := filter (has_label "긍정") reviews in
  let neg := filter (has_label "부정") reviews in
  let total := length pos + length neg in
  get_top_words pos 10 = Ok (positive_summary p) /\
  get_top_words neg 10 = Ok (negative_summary p) /\
  positive_ratio p =
    (if (0 <? total)%nat then Float.truediv (length pos) total else 0%Q) /\
  negative_ratio p =
    (if (0 <? total)%nat then Float.truediv (length neg) total else 0%Q).
Proof.
  unfold aggregate. intros H.
  destruct (reviews_with "긍정" reviews) as [ps|e] eqn:Ep; simpl in H; [|discriminate].
  destruct (reviews_with "부정" reviews) as [ns|e] eqn:En; simpl in H; [|discriminate].
  apply reviews_with_filter in Ep, En. subst ps ns.
  destruct (get_top_words (filter (has_label "긍정") reviews) 10) as [s1|e];
    simpl in H; [|discriminate].
  destruct (get_top_words (filter (has_label "부정") reviews) 10) as [s2|e];
    simpl in H; [|discriminate].
  inversion H; subst; simpl. repeat split; reflexivity.
Qed.

Lemma aggregate_unfold (reviews : list value) :
  Forall (fun r => is_ok (getitem r "감정") = true) reviews ->
  aggregate reviews =
  (let pos := filter (has_label "긍정") reviews in
   let neg := filter (has_label "부정") reviews in
   positive_summary <- get_top_words pos 10 ;;
   negative_summary <- get_top_words neg 10 ;;
   let total := length pos + length neg in
   Ok {| positive_summary := positive_summary;
         negative_summary := negative_summary;
         positive_ratio :=
           if (0 <? total)%nat then Float.truediv (length pos) total else 0%Q;
         negative_ratio :=
           if (0 <? total)%nat then Float.truediv (length neg) total else 0%Q |}).
Proof.
  intros H. unfold aggregate.
  rewrite !(reviews_with_total _ _ H). reflexivity.
Qed.

Lemma filter_length_existsb {A} (f : A -> bool) (l : list A) :
  existsb f l = (0 <? length (filter f l))%nat.
Proof.
  induction l as [|x l IH]; simpl; [reflexivity|].
  destruct (f x); simpl; [reflexivity | exact IH].
Qed.

Lemma existsb_either {A} (f g : A -> bool) (l : list A) :
  existsb (fun x => f x || g x) l = existsb f l || existsb g l.
Proof.
  induction l as [|x l IH]; simpl; [reflexivity|].
  rewrite IH. destruct (f x), (g x), (existsb f l); reflexivity.
Qed.

Lemma counted_total (reviews : list value) :
  existsb counted reviews =
  (0 <? length (filter (has_label "긍정") reviews)
        + length (filter (has_label "부정") reviews))%nat.
Proof.
  unfold counted. rewrite existsb_either, !filter_length_existsb.
  destruct (length (filter (has_label "긍정") reviews));
    destruct (length (filter (has_label "부정") reviews)); reflexivity.
Qed.

End AggregateFacts.

Section Ratios.

Context {okt : Okt}.

(** C1, as the code has it.  When [aggregate] returns and at least one
    review is labelled positive or negative, the two ratios add up to 1
    within 1e-9, as real numbers and as the [float] Python computes for
    their sum; when no review carries one of the two labels, in particular
    for the empty list, both ratios are 0. *)
Theorem ratios_sum (reviews : list value) (p : Processed) :
  aggregate reviews = Ok p ->
  (existsb counted reviews = true -> sums_to_one p /\ float_sums_to_one p) /\
  (existsb counted reviews = false ->
   positive_ratio p = 0%Q /\ negative_ratio p = 0%Q).
Proof.
  intros H. destruct (aggregate_ok reviews p H) as (_ & _ & Hp & Hn).
  cbv zeta in Hp, Hn. rewrite counted_total.
  set (np := length (filter (has_label "긍정") reviews)) in *.
  set (nn := length (filter (has_label "부정") reviews)) in *.
  split; intros Ht; rewrite Ht in Hp, Hn.
  - apply Nat.ltb_lt in Ht.
    unfold sums_to_one, float_sums_to_one. rewrite Hp, Hn.
    split; [apply truediv_sum | apply truediv_sum_rounded]; exact Ht.
  - now split.
Qed.

End Ratios.

(** [ratios_sum] on four reviews, two positive, one negative and one with a
    third label: the ratios are the floats nearest 2/3 and 1/3. *)
Lemma ratios_sum_witness :
  let p := {| positive_summary := "좋다, 영화, 연기";
              negative_summary := "영화, 지루하다";
              positive_ratio := (6004799503160661 # 9007199254740992)%Q;
              negative_ratio := (6004799503160661 # 18014398509481984)%Q |} in
  sums_to_one p /\ float_sums_to_one p.
Proof.
  refine (proj1 (@ratios_sum Demo.okt
           [Demo.review "긍정" "영화 좋다"; Demo.review "중립" "음악";
            Demo.review "부정" "영화 지루하다"; Demo.review "긍정" "연기 좋다"]
           _ _) _).
  - vm_compute. reflexivity.
  - vm_compute. reflexivity.
Defined.

(** C1 fails as stated: a list that is not empty and whose only review
    carries a third label gets the ratios 0 and 0, and 0 is not within 1e-9
    of 1. *)
Lemma ratios_counterexample :
  let reviews := [Demo.review "중립" "영화 좋다"] in
  let p := {| positive_summary := ""; negative_summary := "";
              positive_ratio := 0%Q; negative_ratio := 0%Q |} in
  reviews <> [] /\
  @aggregate Demo.okt reviews = Ok p /\
  ~ sums_to_one p.
Proof.
  cbv zeta. split; [discriminate|]. split; [reflexivity|].
  unfold sums_to_one. intros H. vm_compute in H. now apply H.
Qed.

Section Groups.

Context {okt : Okt}.

Lemma extend_all_texts (l1 l2 : list value) (acc : list string) :
  map (fun r => getitem r "리뷰내용") l1 = map (fun r => getitem r "리뷰내용") l2 ->
  extend_all acc l1 = extend_all acc l2.
Proof.
  revert l2 acc. induction l1 as [|r1 l1 IH]; intros [|r2 l2] acc H;
    simpl in *; try discriminate; [reflexivity|].
  injection H as Hr Hl. rewrite Hr.
  destruct (getitem r2 "리뷰내용") as [t|e]; simpl; [|reflexivity].
  destruct (preprocess_text t) as [ws|e]; simpl; [|reflexivity].
  now apply IH.
Qed.

Lemma get_top_words_texts (l1 l2 : list value) (n : Z) :
  map (fun r => getitem r "리뷰내용") l1 = map (fun r => getitem r "리뷰내용") l2 ->
  get_top_words l1 n = get_top_words l2 n.
Proof.
  intros H. unfold get_top_words, top_words.
  now rewrite (extend_all_texts l1 l2 [] H).
Qed.

(** C10.  The positive summary depends only on the texts of the reviews
    labelled positive: for two review lists whose positive reviews yield the
    same texts in the same order, [get_top_words] on the positive reviews
    gives the same result, value or exception, and whenever [aggregate]
    returns on both lists the two positive summaries are equal.  The same
    holds for the negative summary and the reviews labelled negative. *)
Theorem summary_depends_on_own_texts (rs1 rs2 : list value) :
  (texts_of "긍정" rs1 = texts_of "긍정" rs2 ->
   get_top_words (filter (has_label "긍정") rs1) 10 =
   get_top_words (filter (has_label "긍정") rs2) 10 /\
   forall p1 p2, aggregate rs1 = Ok p1 -> aggregate rs2 = Ok p2 ->
                 positive_summary p1 = positive_summary p2) /\
  (texts_of "부정" rs1 = texts_of "부정" rs2 ->
   get_top_words (filter (has_label "부정") rs1) 10 =
   get_top_words (filter (has_label "부정") rs2) 10 /\
   forall p1 p2, aggregate rs1 = Ok p1 -> aggregate rs2 = Ok p2 ->
                 negative_summary p1 = negative_summary p2).
Proof.
  split; intros H; pose proof (get_top_words_texts _ _ 10 H) as E;
    (split; [exact E|]); intros p1 p2 H1 H2;
    destruct (aggregate_ok rs1 p1 H1) as (A1 & B1 & _);
    destruct (aggregate_ok rs2 p2 H2) as (A2 & B2 & _); cbv zeta in *;
    congruence.
Qed.

Lemma has_label_counted (label : string) (reviews : list value) :
  label = "긍정" \/ label = "부정" ->
  filter (has_label label) (filter counted reviews) = filter (has_label label) reviews.
Proof.
  intros Hl. induction reviews as [|r rs IH]; simpl; [reflexivity|].
  unfold counted at 1.
  destruct (has_label "긍정" r) eqn:E1, (has_label "부정" r) eqn:E2; simpl;
    destruct Hl as [-> | ->]; rewrite ?E1, ?E2, IH; reflexivity.
Qed.

Lemma Forall_filter_keep {A} (P : A -> Prop) (f : A -> bool) (l : list A) :
  Forall P l -> Forall P (filter f l).
Proof.
  induction 1 as [|x l Hx _ IH]; simpl; [constructor|].
  destruct (f x); [constructor|]; assumption.
Qed.

Lemma aggregate_counted (reviews : list value) :
  Forall (fun r => is_ok (getitem r "감정") = true) reviews ->
  aggregate reviews = aggregate (filter counted reviews).
Proof.
  intros H.
  rewrite (aggregate_unfold reviews H).
  rewrite (aggregate_unfold _ (Forall_filter_keep _ counted _ H)).
  cbv zeta. rewrite !has_label_counted by auto. reflexivity.
Qed.

Lemma aggregate_labelled (reviews : list value) (p : Processed) :
  aggregate reviews = Ok p ->
  Forall (fun r => is_ok (getitem r "감정") = true) reviews.
Proof.
  unfold aggregate. intros H.
  destruct (reviews_with "긍정" reviews) as [ps|e] eqn:Ep; [|discriminate].
  exact (reviews_with_labelled _ _ _ Ep).
Qed.

Lemma flush_ok (db db' : Session) (w w' : World) :
  flush db w = (Ok db', w') -> added db' = [] /\ w' = w.
Proof.
  unfold flush. intros H. injection H as H <-.
  destruct (flush_movies _ _ _) as [tm|e]; simpl in H; [|discriminate].
  destruct (flush_reviews _ _ _) as [tr|e]; simpl in H; [|discriminate].
  injection H as <-. now split.
Qed.

(** What one turn of the import loop leaves in the session, when it
    succeeds. *)
Lemma import_movie_ok (db db' : Session) (movie_data : value) (w w' : World) :
  import_movie db movie_data w = (Ok db', w') ->
  exists p,
    process_movie_data movie_data = Ok p /\
    w' = w /\
    added db' =
      [PReview {| Review.o_classification := "긍정";
                  Review.o_ratio := positive_ratio p;
                  Review.o_summary := positive_summary p;
                  Review.o_movie_id := flushed_id db' |};
       PReview {| Review.o_classification := "부정";
                  Review.o_ratio := negative_ratio p;
                  Review.o_summary := negative_summary p;
                  Review.o_movie_id := flushed_id db' |}].
Proof.
  unfold import_movie, Db.bind, lift, ret.
  destruct (process_movie_data movie_data) as [p|e]; [|discriminate].
  repeat match goal with
         | |- context [getitem movie_data ?k] =>
             destruct (getitem movie_data k); [|discriminate]
         end.
  match goal with
  | |- context [flush ?d w] =>
      destruct (flush d w) as [[s|e] w1] eqn:F; [|discriminate]
  end.
  apply flush_ok in F. destruct F as [Hs ->].
  intros H. injection H as <- <-. exists p.
  unfold add; simpl. rewrite Hs. repeat split; reflexivity.
Qed.

End Groups.

(** [summary_depends_on_own_texts] on two lists that share their positive
    review and differ in every other review. *)
Lemma summary_depends_on_own_texts_witness :
  let rs1 := [Demo.review "긍정" "영화 좋다"; Demo.review "부정" "음악 지루하다"] in
  let rs2 := [Demo.review "중립" "배우"; Demo.review "부정" "연기 지루하다";
              Demo.review "긍정" "영화 좋다"; Demo.review "부정" "지루하다"] in
  @get_top_words Demo.okt (filter (has_label "긍정") rs1) 10 =
  @get_top_words Demo.okt (filter (has_label "긍정") rs2) 10 /\
  forall p1 p2, @aggregate Demo.okt rs1 = Ok p1 -> @aggregate Demo.okt rs2 = Ok p2 ->
                positive_summary p1 = positive_summary p2.
Proof.
  intros rs1 rs2.
  apply (proj1 (@summary_depends_on_own_texts Demo.okt rs1 rs2)).
  reflexivity.
Defined.

(* ================================================================== *)
(** * The counter and its ranking *)
(* ================================================================== *)

Section CounterFacts.

Implicit Types (w k : string) (c : Counter.t) (l stream : list string).

Lemma first_index_lt w l : In w l -> first_index w l < length l.
Proof.
  induction l as [|x l IH]; simpl; [tauto|].
  destruct (String.eqb_spec x w) as [->|Hne]; [lia|].
  intros [H|H]; [congruence|]. specialize (IH H). lia.
Qed.

Lemma first_index_app w l l' :
  In w l -> first_index w (l ++ l') = first_index w l.
Proof.
  induction l as [|x l IH]; simpl; [tauto|].
  destruct (String.eqb_spec x w) as [->|Hne]; [reflexivity|].
  intros [H|H]; [congruence|]. now rewrite IH.
Qed.

Lemma first_index_new w l : ~ In w l -> first_index w (l ++ [w]) = length l.
Proof.
  induction l as [|x l IH]; simpl.
  - now rewrite String.eqb_refl.
  - intros H. destruct (String.eqb_spec x w) as [->|Hne]; [tauto|].
    rewrite IH; tauto.
Qed.

Lemma frequency_snoc l w k :
  frequency (l ++ [w]) k = frequency l k + (if String.eqb w k then 1 else 0).
Proof.
  unfold frequency. rewrite count_occ_app. simpl.
  destruct (string_dec w k) as [->|Hne].
  - now rewrite String.eqb_refl.
  - destruct (String.eqb_spec w k); [congruence | reflexivity].
Qed.

Lemma frequency_absent l k : ~ In k l -> frequency l k = 0.
Proof. unfold frequency. now apply count_occ_not_In. Qed.

(** Keys after one increment. *)
Lemma incr_keys w c :
  map fst (Counter.incr w c) =
  if in_dec string_dec w (map fst c) then map fst c else map fst c ++ [w].
Proof.
  induction c as [|[k i] c IH]; simpl; [reflexivity|].
  destruct (String.eqb_spec k w) as [E|Hne]; simpl.
  - destruct (string_dec k w); [reflexivity | congruence].
  - rewrite IH. destruct (string_dec k w) as [E|N]; [congruence|].
    destruct (in_dec string_dec w (map fst c)); reflexivity.
Qed.

(** Counts after one increment. *)
Lemma incr_counts w c (cnt cnt' : string -> nat) :
  NoDup (map fst c) ->
  (forall k, k <> w -> cnt' k = cnt k) ->
  cnt' w = S (cnt w) ->
  (~ In w (map fst c) -> cnt w = 0) ->
  Forall (fun kv => snd kv = cnt (fst kv)) c ->
  Forall (fun kv => snd kv = cnt' (fst kv)) (Counter.incr w c).
Proof.
  intros Hnd Hother Hw Hnew. induction c as [|[k i] c IH]; simpl; intros Hc.
  - constructor; [|constructor]. simpl. rewrite Hw, Hnew; tauto.
  - inversion Hnd as [|? ? Hk Hnd']; subst. inversion Hc as [|? ? Hi Hc']; subst.
    simpl in Hi.
    destruct (String.eqb_spec k w) as [E|Hne].
    + constructor; [simpl; congruence|].
      rewrite Forall_forall in *. intros [k' i'] Hin. simpl.
      rewrite Hother; [exact (Hc' _ Hin)|].
      intros E'. apply Hk. rewrite E, <- E'.
      change k' with (fst (k', i')). now apply in_map.
    + constructor; [simpl; rewrite Hother; auto|].
      apply IH; auto. simpl in Hnew. tauto.
Qed.

Lemma StronglySorted_snoc {A} (R : A -> A -> Prop) (l : list A) (x : A) :
  StronglySorted R l -> Forall (fun y => R y x) l -> StronglySorted R (l ++ [x]).
Proof.
  induction 1 as [|y l Hs IH Hy]; simpl; intros Hx.
  - repeat constructor.
  - inversion Hx; subst. constructor; [auto|].
    apply Forall_app. split; [exact Hy | repeat constructor; assumption].
Qed.

Lemma StronglySorted_weaken {A} (R R' : A -> A -> Prop) (l : list A) :
  (forall x y, In x l -> In y l -> R x y -> R' x y) ->
  StronglySorted R l -> StronglySorted R' l.
Proof.
  intros HR. induction 1 as [|x l Hs IH Hx]; constructor.
  - apply IH. intros; apply HR; simpl; auto.
  - rewrite Forall_forall in *. intros y Hy. apply HR; simpl; auto.
Qed.

Lemma counts_of_incr stream c w :
  counts_of stream c -> counts_of (stream ++ [w]) (Counter.incr w c).
Proof.
  intros (Hnd & Hin & Hcnt & Hord).
  assert (Hkeys := incr_keys w c).
  repeat split.
  - rewrite Hkeys. destruct (in_dec string_dec w (map fst c)) as [Hw|Hw]; [exact Hnd|].
    apply NoDup_app_remove_l with (l := []). simpl.
    apply Permutation_NoDup with (l := w :: map fst c).
    + apply Permutation_cons_append.
    + now constructor.
  - rewrite Hkeys. rewrite in_app_iff. simpl.
    destruct (in_dec string_dec w (map fst c)) as [Hw|Hw].
    + rewrite Hin. tauto.
    + rewrite in_app_iff, Hin. simpl. tauto.
  - rewrite Hkeys. rewrite in_app_iff. simpl.
    destruct (in_dec string_dec w (map fst c)) as [Hw|Hw].
    + rewrite Hin. intros [H|[<-|[]]]; [exact H | now apply Hin].
    + rewrite in_app_iff, Hin. simpl. tauto.
  - apply incr_counts with (cnt := frequency stream); auto.
    + intros k Hk. rewrite frequency_snoc.
      destruct (String.eqb_spec w k); [congruence | lia].
    + rewrite frequency_snoc, String.eqb_refl. lia.
    + intros Hw. apply frequency_absent. now rewrite <- Hin.
  - rewrite Hkeys.
    assert (Hold : StronglySorted
              (fun a b => first_index a (stream ++ [w]) < first_index b (stream ++ [w]))
              (map fst c)).
    { eapply StronglySorted_weaken; [|exact Hord].
      intros x y Hx Hy Hlt. apply Hin in Hx, Hy.
      now rewrite !first_index_app. }
    destruct (in_dec string_dec w (map fst c)) as [Hw|Hw]; [exact Hold|].
    apply StronglySorted_snoc; [exact Hold|].
    rewrite Forall_forall. intros y Hy. apply Hin in Hy.
    rewrite first_index_app by exact Hy.
    rewrite first_index_new by (now rewrite <- Hin).
    now apply first_index_lt.
Qed.

Lemma of_list_snoc stream w :
  Counter.of_list (stream ++ [w]) = Counter.incr w (Counter.of_list stream).
Proof. unfold Counter.of_list. now rewrite fold_left_app. Qed.

Lemma counts_of_list stream : counts_of stream (Counter.of_list stream).
Proof.
  induction stream as [|w stream IH] using rev_ind.
  - repeat split; simpl; try tauto; constructor.
  - rewrite of_list_snoc. now apply counts_of_incr.
Qed.


Lemma insert_desc_perm (x : string * nat) c :
  Permutation (Counter.insert_desc x c) (x :: c).
Proof.
  induction c as [|y c IH]; simpl; [reflexivity|].
  destruct (snd y <=? snd x)%nat; [reflexivity|].
  rewrite IH. apply perm_swap.
Qed.

Lemma sorted_desc_perm c : Permutation (Counter.sorted_desc c) c.
Proof.
  induction c as [|x c IH]; simpl; [reflexivity|].
  rewrite insert_desc_perm. now constructor.
Qed.

Lemma insert_desc_sorted stream (x : string * nat) c :
  StronglySorted (entry_before stream) c ->
  Forall (fun y => first_index (fst x) stream < first_index (fst y) stream) c ->
  StronglySorted (entry_before stream) (Counter.insert_desc x c).
Proof.
  induction 1 as [|y c Hs IH Hy]; simpl; intros Hx.
  - repeat constructor.
  - inversion Hx as [|? ? Hxy Hxc]; subst.
    destruct (Nat.leb_spec (snd y) (snd x)) as [Hle|Hgt].
    + constructor; [now constructor|].
      constructor; [unfold entry_before; lia|].
      rewrite Forall_forall in *. intros z Hz.
      specialize (Hy z Hz). specialize (Hxc z Hz).
      unfold entry_before in *. lia.
    + constructor; [auto|].
      apply (Permutation_Forall (Permutation_sym (insert_desc_perm x c))).
      constructor; [unfold entry_before; lia | exact Hy].
Qed.

Lemma sorted_desc_sorted stream c :
  StronglySorted
    (fun a b => first_index (fst a) stream < first_index (fst b) stream) c ->
  StronglySorted (entry_before stream) (Counter.sorted_desc c).
Proof.
  induction 1 as [|x c Hs IH Hx]; simpl; [constructor|].
  apply insert_desc_sorted; [exact IH|].
  exact (Permutation_Forall (Permutation_sym (sorted_desc_perm c)) Hx).
Qed.

Lemma StronglySorted_map {A B} (f : A -> B) (R : B -> B -> Prop) (l : list A) :
  StronglySorted R (map f l) <-> StronglySorted (fun a b => R (f a) (f b)) l.
Proof.
  induction l as [|x l IH]; simpl; split; intros H; try constructor;
    inversion H; subst; try (now apply IH).
  - now rewrite Forall_map in *.
  - now rewrite Forall_map.
Qed.

Lemma StronglySorted_app_inv {A} (R : A -> A -> Prop) (l1 l2 : list A) :
  StronglySorted R (l1 ++ l2) ->
  StronglySorted R l1 /\ (forall a b, In a l1 -> In b l2 -> R a b).
Proof.
  induction l1 as [|x l1 IH]; simpl; intros H.
  - split; [constructor | tauto].
  - inversion H as [|? ? Hs Hx]; subst. destruct (IH Hs) as [Hs1 Hc].
    rewrite Forall_app in Hx. destruct Hx as [Hx1 Hx2].
    split; [now constructor|].
    intros a b [<-|Ha] Hb; [|now apply Hc].
    rewrite Forall_forall in Hx2. now apply Hx2.
Qed.

Lemma StronglySorted_irrefl_NoDup {A} (R : A -> A -> Prop) (l : list A) :
  (forall x, ~ R x x) -> StronglySorted R l -> NoDup l.
Proof.
  intros Hirr. induction 1 as [|x l Hs IH Hx]; constructor; [|exact IH].
  intros Hin. rewrite Forall_forall in Hx. exact (Hirr x (Hx x Hin)).
Qed.

Lemma ranks_before_irrefl stream w : ~ ranks_before stream w w.
Proof. unfold ranks_before. lia. Qed.

(** The ranking [most_common] reads off a counter that holds [stream]. *)
Lemma most_common_ranked stream c (n : Z) :
  counts_of stream c ->
  let top := map fst (Counter.most_common n c) in
  StronglySorted (ranks_before stream) top /\
  NoDup top /\
  (forall w, In w top -> In w stream) /\
  length top = Nat.min (Z.to_nat n) (length (nodup string_dec stream)) /\
  (forall w t, In w stream -> ~ In w top -> In t top -> ranks_before stream t w).
Proof.
  intros (Hnd & Hin & Hcnt & Hord) top.
  set (s := Counter.sorted_desc c).
  assert (Hperm : Permutation s c) by apply sorted_desc_perm.
  assert (Hs : StronglySorted (entry_before stream) s).
  { apply sorted_desc_sorted.
    exact (proj1 (StronglySorted_map fst _ c) Hord). }
  assert (Hfreq : Forall (fun kv => snd kv = frequency stream (fst kv)) s).
  { exact (Permutation_Forall (Permutation_sym Hperm) Hcnt). }
  assert (Hrank : forall a b, In a s -> In b s -> entry_before stream a b ->
                              ranks_before stream (fst a) (fst b)).
  { rewrite Forall_forall in Hfreq. intros a b Ha Hb.
    unfold entry_before, ranks_before.
    rewrite (Hfreq a Ha), (Hfreq b Hb). tauto. }
  assert (Hsplit : s = Counter.most_common n c ++ skipn (Z.to_nat n) s).
  { unfold Counter.most_common. fold s. now rewrite firstn_skipn. }
  rewrite Hsplit in Hs. apply StronglySorted_app_inv in Hs.
  destruct Hs as [Htop Hcross].
  assert (Hsub : forall a, In a (Counter.most_common n c) -> In a s).
  { intros a Ha. rewrite Hsplit. apply in_or_app. now left. }
  assert (Hsorted : StronglySorted (ranks_before stream) top).
  { apply StronglySorted_map.
    eapply StronglySorted_weaken; [|exact Htop].
    intros x y Hx Hy. apply Hrank; auto. }
  split; [exact Hsorted|].
  split; [exact (StronglySorted_irrefl_NoDup _ _ (ranks_before_irrefl stream) Hsorted)|].
  split; [|split].
  - intros w Hw. apply Hin. apply in_map_iff in Hw. destruct Hw as (a & <- & Ha).
    apply in_map. apply (Permutation_in _ Hperm). auto.
  - unfold top, Counter.most_common. fold s.
    rewrite length_map, length_firstn. f_equal.
    rewrite (Permutation_length Hperm), <- (length_map fst c).
    apply Permutation_length. apply NoDup_Permutation; [exact Hnd | apply NoDup_nodup|].
    intros k. rewrite Hin, nodup_In. tauto.
  - intros w t Hw Hnot Ht.
    apply Hin in Hw. apply in_map_iff in Hw. destruct Hw as (b & <- & Hb).
    apply (Permutation_in _ (Permutation_sym Hperm)) in Hb.
    apply in_map_iff in Ht. destruct Ht as (a & <- & Ha).
    apply Hrank; auto.
    apply Hcross; [exact Ha|].
    rewrite Hsplit in Hb. apply in_app_or in Hb. destruct Hb as [Hb|Hb]; [|exact Hb].
    exfalso. apply Hnot. now apply in_map.
Qed.

End CounterFacts.

(* ================================================================== *)
(** * Ranking of the summary words *)
(* ================================================================== *)

Section Ranking.

Context {okt : Okt}.

(** C3.  When the reviews yield the token stream [stream], the words
    [get_top_words] joins are ranked by [ranks_before]: by descending
    frequency, and among tokens of equal frequency by first occurrence in
    [stream].  They are distinct tokens of the stream, as many as [n] and the
    number of distinct tokens allow, and every token left out ranks after
    every word kept. *)
Theorem top_words_ranking (reviews : list value) (n : Z) (stream : list string) :
  extend_all [] reviews = Ok stream ->
  exists top,
    top_words reviews n = Ok top /\
    get_top_words reviews n = Ok (join ", " top) /\
    StronglySorted (ranks_before stream) top /\
    NoDup top /\
    (forall w, In w top -> In w stream) /\
    length top = Nat.min (Z.to_nat n) (length (nodup string_dec stream)) /\
    (forall w t, In w stream -> ~ In w top -> In t top -> ranks_before stream t w).
Proof.
  intros H.
  exists (map fst (Counter.most_common n (Counter.of_list stream))).
  split; [|split].
  - unfold top_words. now rewrite H.
  - unfold get_top_words, top_words. now rewrite H.
  - apply most_common_ranked, counts_of_list.
Qed.

End Ranking.

(** [top_words_ranking] on three reviews with a three-way tie at
    frequency 2. *)
Lemma top_words_ranking_witness :
  let stream := ["음악"; "좋다"; "연기"; "영화"; "연기"; "좋다"; "영화"; "배우"] in
  exists top,
    @top_words Demo.okt
      [Demo.review "긍정" "음악 정말 좋다"; Demo.review "긍정" "연기, 영화, 연기!";
       Demo.review "긍정" "좋다 영화 배우"] 3 = Ok top /\
    @get_top_words Demo.okt
      [Demo.review "긍정" "음악 정말 좋다"; Demo.review "긍정" "연기, 영화, 연기!";
       Demo.review "긍정" "좋다 영화 배우"] 3 = Ok (join ", " top) /\
    StronglySorted (ranks_before stream) top /\
    NoDup top /\
    (forall w, In w top -> In w stream) /\
    length top = Nat.min (Z.to_nat 3) (length (nodup string_dec stream)) /\
    (forall w t, In w stream -> ~ In w top -> In t top -> ranks_before stream t w).
Proof.
  apply (@top_words_ranking Demo.okt). vm_compute. reflexivity.
Defined.

Example top_words_ties :
  @get_top_words Demo.okt
    [Demo.review "긍정" "음악 정말 좋다"; Demo.review "긍정" "연기, 영화, 연기!";
     Demo.review "긍정" "좋다 영화 배우"] 3 = Ok "좋다, 연기, 영화".
Proof. vm_compute. reflexivity. Qed.

(* ================================================================== *)
(** * Exceptions during the import *)
(* ================================================================== *)

Section Failures.

Context {okt : Okt}.

Lemma extend_all_step (acc : list string) (review : value) (rest : list value) :
  extend_all acc (review :: rest) =
  (tokens <- review_tokens review ;; extend_all (acc ++ tokens) rest).
Proof.
  simpl. unfold review_tokens.
  destruct (getitem review "리뷰내용"); reflexivity.
Qed.

Lemma extend_all_raises (acc : list string) (reviews : list value) (review : value) :
  In review reviews ->
  is_ok (review_tokens review) = false ->
  is_ok (extend_all acc reviews) = false.
Proof.
  revert acc. induction reviews as [|r rs IH]; intros acc Hin Hbad; [destruct Hin|].
  rewrite extend_all_step.
  destruct (review_tokens r) as [ws|e] eqn:E; [|reflexivity]. simpl.
  destruct Hin as [->|Hin]; [rewrite E in Hbad; discriminate|].
  now apply IH.
Qed.

Lemma extend_all_first (acc ws : list string) (good rest : list value)
  (review : value) (e : exn) :
  extend_all acc good = Ok ws ->
  review_tokens review = Raise e ->
  extend_all acc (good ++ review :: rest) = Raise e.
Proof.
  revert acc. induction good as [|r rs IH]; intros acc Hgood Hbad.
  - simpl app. rewrite extend_all_step, Hbad. reflexivity.
  - simpl app. rewrite extend_all_step in *.
    destruct (review_tokens r) as [t|e']; [|discriminate]. simpl in *.
    now apply IH.
Qed.

Lemma get_top_words_raises (reviews : list value) (review : value) (n : Z) :
  In review reviews ->
  is_ok (review_tokens review) = false ->
  is_ok (get_top_words reviews n) = false.
Proof.
  intros Hin Hbad. unfold get_top_words, top_words.
  pose proof (extend_all_raises [] reviews review Hin Hbad) as H.
  destruct (extend_all [] reviews); [discriminate | reflexivity].
Qed.

Lemma get_top_words_first (ws : list string) (good rest : list value)
  (review : value) (e : exn) (n : Z) :
  extend_all [] good = Ok ws ->
  review_tokens review = Raise e ->
  get_top_words (good ++ review :: rest) n = Raise e.
Proof.
  intros Hgood Hbad. unfold get_top_words, top_words.
  now rewrite (extend_all_first [] ws good rest review e Hgood Hbad).
Qed.

Lemma aggregate_raises (reviews : list value) (review : value) :
  In review reviews ->
  counted review = true ->
  is_ok (review_tokens review) = false ->
  is_ok (aggregate reviews) = false.
Proof.
  intros Hin Hc Hbad. unfold aggregate.
  destruct (reviews_with "긍정" reviews) as [ps|e] eqn:Ep; [|reflexivity].
  destruct (reviews_with "부정" reviews) as [ns|e] eqn:En; [|reflexivity].
  apply reviews_with_filter in Ep, En. subst ps ns. simpl.
  unfold counted in Hc. apply orb_true_iff in Hc.
  destruct Hc as [Hc|Hc].
  - assert (H : In review (filter (has_label "긍정") reviews))
      by (apply filter_In; auto).
    pose proof (get_top_words_raises _ _ 10 H Hbad) as F.
    destruct (get_top_words (filter (has_label "긍정") reviews) 10);
      [discriminate | reflexivity].
  - assert (H : In review (filter (has_label "부정") reviews))
      by (apply filter_In; auto).
    pose proof (get_top_words_raises _ _ 10 H Hbad) as F.
    destruct (get_top_words (filter (has_label "긍정") reviews) 10);
      [|reflexivity]. simpl.
    destruct (get_top_words (filter (has_label "부정") reviews) 10);
      [discriminate | reflexivity].
Qed.

Lemma import_movie_world (db : Session) (movie_data : value) (w : World) :
  snd (import_movie db movie_data w) = w.
Proof.
  unfold import_movie, Db.bind, lift, ret.
  destruct (process_movie_data movie_data); [|reflexivity].
  repeat match goal with
         | |- context [getitem movie_data ?k] =>
             destruct (getitem movie_data k); [|reflexivity]
         end.
  unfold flush.
  match goal with
  | |- context [Py.bind ?m ?k] => destruct (Py.bind m k); reflexivity
  end.
Qed.

Lemma import_movie_raises (db : Session) (movie_data : value) (w : World) :
  is_ok (process_movie_data movie_data) = false ->
  is_ok (fst (import_movie db movie_data w)) = false.
Proof.
  unfold import_movie, Db.bind, lift.
  destruct (process_movie_data movie_data); [discriminate | reflexivity].
Qed.

Lemma import_movies_world (data : list value) (db : Session) (w : World) :
  snd (import_movies db data w) = w.
Proof.
  revert db. induction data as [|m data IH]; intros db; simpl; [reflexivity|].
  unfold Db.bind. pose proof (import_movie_world db m w) as Hw.
  destruct (import_movie db m w) as [[db'|e] w1]; simpl in Hw; subst w1.
  - apply IH.
  - reflexivity.
Qed.

Lemma import_movies_raises (data : list value) (movie_data : value)
  (db : Session) (w : World) :
  In movie_data data ->
  is_ok (process_movie_data movie_data) = false ->
  is_ok (fst (import_movies db data w)) = false.
Proof.
  intros Hin Hbad. revert db. induction data as [|m data IH]; intros db;
    [destruct Hin|]. simpl. unfold Db.bind.
  pose proof (import_movie_world db m w) as Hw.
  destruct (import_movie db m w) as [[db'|e] w1] eqn:E; simpl in Hw; subst w1;
    [|reflexivity].
  destruct Hin as [->|Hin]; [|now apply IH].
  pose proof (import_movie_raises db movie_data w Hbad) as F.
  rewrite E in F. discriminate.
Qed.

(** A movie whose aggregation raises aborts the whole import: the exception
    leaves [load_and_process_data] before [commit] and before [close]. *)
Lemma load_aborts (w : World) (data movie_data : value) (movies : list value) :
  data_file w = Parsed data ->
  iter data = Ok movies ->
  In movie_data movies ->
  is_ok (process_movie_data movie_data) = false ->
  exists e, load_and_process_data w = (Raise e, with_session w).
Proof.
  intros Hfile Hiter Hin Hbad.
  unfold load_and_process_data, Db.bind, read_data, SessionLocal, lift.
  rewrite Hfile, Hiter.
  match goal with
  | |- context [import_movies ?d movies ?w1] =>
      pose proof (import_movies_world movies d w1) as Hw;
      pose proof (import_movies_raises movies movie_data d w1 Hin Hbad) as Hr;
      destruct (import_movies d movies w1) as [[db'|e] w2]
  end; simpl in Hw, Hr; [discriminate|].
  subst w2. exists e. reflexivity.
Qed.

Lemma process_movie_data_raises (movie_data field review : value)
  (reviews : list value) :
  getitem movie_data "리뷰" = Ok field ->
  iter field = Ok reviews ->
  In review reviews ->
  counted review = true ->
  is_ok (review_tokens review) = false ->
  is_ok (process_movie_data movie_data) = false.
Proof.
  intros Hf Hi Hin Hc Hbad. unfold process_movie_data.
  rewrite Hf. simpl. rewrite Hi. simpl.
  now apply (aggregate_raises reviews review).
Qed.

End Failures.

Section ImportFailures.

Context {okt : Okt}.

(** C4, as the code has it.  A review labelled positive or negative that
    lacks its text field makes the import fail: [load_and_process_data]
    raises before [commit], leaving the store and the console as they were
    and the session open, so the record is neither skipped nor summarised.
    The exception raised at that review is [KeyError('리뷰내용')], which names
    the field and nothing else. *)
Theorem missing_text_aborts_import
  (w : World) (data movie_data field review : value)
  (movies reviews : list value) (d : list (string * value)) :
  data_file w = Parsed data ->
  iter data = Ok movies ->
  In movie_data movies ->
  getitem movie_data "리뷰" = Ok field ->
  iter field = Ok reviews ->
  In review reviews ->
  counted review = true ->
  review = VDict d ->
  lookup "리뷰내용" d = None ->
  (exists e, load_and_process_data w = (Raise e, with_session w)) /\
  (forall good rest ws n,
     extend_all [] good = Ok ws ->
     get_top_words (good ++ review :: rest) n = Raise (KeyError "리뷰내용")).
Proof.
  intros Hfile Hiter Hin Hf Hi Hr Hc -> Hd.
  assert (Hbad : review_tokens (VDict d) = Raise (KeyError "리뷰내용")).
  { unfold review_tokens. simpl. now rewrite Hd. }
  split.
  - apply (load_aborts w data movie_data movies Hfile Hiter Hin).
    apply (process_movie_data_raises movie_data field (VDict d) reviews); auto.
    now rewrite Hbad.
  - intros good rest ws n Hgood.
    exact (get_top_words_first ws good rest _ _ n Hgood Hbad).
Qed.

(** C7, as the code has it.  When the analyser raises on the text of a
    review labelled positive or negative, no text is skipped: the exception
    leaves [get_top_words] as it is, and [load_and_process_data] raises
    before [commit], leaving the store and the console as they were. *)
Theorem analysis_failure_aborts_import
  (w : World) (data movie_data field review : value)
  (movies reviews : list value) (text : string) (e0 : exn) :
  data_file w = Parsed data ->
  iter data = Ok movies ->
  In movie_data movies ->
  getitem movie_data "리뷰" = Ok field ->
  iter field = Ok reviews ->
  In review reviews ->
  counted review = true ->
  getitem review "리뷰내용" = Ok (VStr text) ->
  okt_pos (re_sub_nonword text) = Raise e0 ->
  (exists e, load_and_process_data w = (Raise e, with_session w)) /\
  (forall good rest ws n,
     extend_all [] good = Ok ws ->
     get_top_words (good ++ review :: rest) n = Raise e0).
Proof.
  intros Hfile Hiter Hin Hf Hi Hr Hc Ht He.
  assert (Hbad : review_tokens review = Raise e0).
  { unfold review_tokens. rewrite Ht. simpl. now rewrite He. }
  split.
  - apply (load_aborts w data movie_data movies Hfile Hiter Hin).
    apply (process_movie_data_raises movie_data field review reviews); auto.
    now rewrite Hbad.
  - intros good rest ws n Hgood.
    exact (get_top_words_first ws good rest _ _ n Hgood Hbad).
Qed.

End ImportFailures.

(** [missing_text_aborts_import] on a data file whose second movie has a
    negative review without text. *)
Lemma missing_text_aborts_import_witness :
  let data := VList [Demo.movie "괴물" [Demo.review "긍정" "영화 좋다"];
                     Demo.movie "기생충" [Demo.review "긍정" "연기 좋다";
                                             Demo.no_text "부정"]] in
  (exists e, @load_and_process_data Demo.okt (Demo.empty_tables data)
             = (Raise e, with_session (Demo.empty_tables data))) /\
  (forall good rest ws n,
     @extend_all Demo.okt [] good = Ok ws ->
     @get_top_words Demo.okt (good ++ Demo.no_text "부정" :: rest) n
     = Raise (KeyError "리뷰내용")).
Proof.
  intros data.
  apply (@missing_text_aborts_import Demo.okt (Demo.empty_tables data) data
           (Demo.movie "기생충" [Demo.review "긍정" "연기 좋다"; Demo.no_text "부정"])
           (VList [Demo.review "긍정" "연기 좋다"; Demo.no_text "부정"])
           (Demo.no_text "부정")
           [Demo.movie "괴물" [Demo.review "긍정" "영화 좋다"];
            Demo.movie "기생충" [Demo.review "긍정" "연기 좋다"; Demo.no_text "부정"]]
           [Demo.review "긍정" "연기 좋다"; Demo.no_text "부정"]
           [("감정", VStr "부정")]);
    try reflexivity; simpl; auto.
Defined.

(** C4 fails as stated: the diagnostic of the aborted run is
    [KeyError('리뷰내용')]; its text holds the field name, and neither the title
    of the movie nor the path of the data file. *)
Lemma missing_text_counterexample :
  let data := VList [Demo.movie "기생충" [Demo.review "긍정" "연기 좋다";
                                             Demo.no_text "부정"]] in
  exists e w,
    @main Demo.okt (Demo.fresh data) = (Raise e, w) /\
    e = KeyError "리뷰내용" /\
    contains (message e) "리뷰내용" = true /\
    contains (message e) "기생충" = false /\
    contains (message e) data_file_path = false.
Proof.
  cbv zeta. eexists. eexists. split; [vm_compute; reflexivity|].
  repeat split; vm_compute; reflexivity.
Qed.

(** [analysis_failure_aborts_import] on a data file whose second movie has
    a review the stand-in analyser cannot analyse. *)
Lemma analysis_failure_aborts_import_witness :
  let data := VList [Demo.movie "괴물" [Demo.review "긍정" "영화 좋다"];
                     Demo.movie "기생충" [Demo.review "긍정" "연기 좋다";
                                             Demo.review "부정" "ㅋㅋㅋ 지루하다"]] in
  (exists e, @load_and_process_data Demo.okt (Demo.empty_tables data)
             = (Raise e, with_session (Demo.empty_tables data))) /\
  (forall good rest ws n,
     @extend_all Demo.okt [] good = Ok ws ->
     @get_top_words Demo.okt
       (good ++ Demo.review "부정" "ㅋㅋㅋ 지루하다" :: rest) n
     = Raise (AnalyzerError "cannot analyse: ㅋㅋㅋ")).
Proof.
  intros data.
  apply (@analysis_failure_aborts_import Demo.okt (Demo.empty_tables data) data
           (Demo.movie "기생충" [Demo.review "긍정" "연기 좋다";
                                   Demo.review "부정" "ㅋㅋㅋ 지루하다"])
           (VList [Demo.review "긍정" "연기 좋다";
                   Demo.review "부정" "ㅋㅋㅋ 지루하다"])
           (Demo.review "부정" "ㅋㅋㅋ 지루하다")
           [Demo.movie "괴물" [Demo.review "긍정" "영화 좋다"];
            Demo.movie "기생충" [Demo.review "긍정" "연기 좋다";
                                    Demo.review "부정" "ㅋㅋㅋ 지루하다"]]
           [Demo.review "긍정" "연기 좋다"; Demo.review "부정" "ㅋㅋㅋ 지루하다"]
           "ㅋㅋㅋ 지루하다");
    try reflexivity; simpl; auto.
Defined.

(** C7 fails as stated: one review that cannot be analysed aborts the
    start-up; the first movie and the remaining reviews are not imported
    (both tables stay empty) and nothing but the line of [create_tables] is
    printed. *)
Lemma analysis_failure_counterexample :
  let data := VList [Demo.movie "괴물" [Demo.review "긍정" "영화 좋다"];
                     Demo.movie "기생충" [Demo.review "긍정" "연기 좋다";
                                             Demo.review "부정" "ㅋㅋㅋ 지루하다";
                                             Demo.review "부정" "음악 지루하다"]] in
  exists w,
    @main Demo.okt (Demo.fresh data)
      = (Raise (AnalyzerError "cannot analyse: ㅋㅋㅋ"), w) /\
    store w = {| movies := Some []; reviews := Some [] |} /\
    stdout w = ["Tables created."].
Proof.
  cbv zeta. eexists. split; [vm_compute; reflexivity|]. split; reflexivity.
Qed.

(* ================================================================== *)
(** * The handlers and the start-up sequence *)
(* ================================================================== *)

Lemma close_after_open (w : World) :
  {| data_file := data_file w; store := store w;
     open_sessions := pred (S (open_sessions w)); stdout := stdout w |} = w.
Proof. now destruct w. Qed.




(** C8, as the code has it.  [get_movie] closes its session when it
    returns a movie: the world is then as it was before the request.  When a
    query raises because a table is missing, the exception leaves the
    handler with the session still open. *)
Theorem get_movie_sessions (w : World) (movie_id : Z) :
  (forall ms rs movie,
     movies (store w) = Some ms ->
     reviews (store w) = Some rs ->
     find (fun m => (Movie.id m =? movie_id)%Z) ms = Some movie ->
     snd (get_movie movie_id w) = w) /\
  (movies (store w) = None ->
   get_movie movie_id w =
   (Raise (OperationalError "no such table: movies"), with_session w)) /\
  (forall ms movie,
     movies (store w) = Some ms ->
     find (fun m => (Movie.id m =? movie_id)%Z) ms = Some movie ->
     reviews (store w) = None ->
     get_movie movie_id w =
     (Raise (OperationalError "no such table: reviews"), with_session w)).
Proof.
  unfold get_movie, SessionLocal, query_movies, query_reviews,
    get_store, close, ret, raise, Db.bind; simpl.
  split; [|split].
  - intros ms rs movie Hm Hr Hf. rewrite Hm; simpl. rewrite app_nil_r, Hf.
    simpl. rewrite Hr; simpl. apply close_after_open.
  - intros Hm. rewrite Hm. reflexivity.
  - intros ms movie Hm Hf Hr. rewrite Hm; simpl. rewrite app_nil_r, Hf.
    simpl. rewrite Hr. reflexivity.
Qed.

(** [get_movie_sessions] after one import of [Demo.sample], and on a
    database without tables. *)
Lemma get_movie_sessions_witness :
  snd (get_movie 1 Demo.after_import) = Demo.after_import /\
  get_movie 1 (Demo.fresh Demo.sample) =
  (Raise (OperationalError "no such table: movies"),
   with_session (Demo.fresh Demo.sample)).
Proof.
  split.
  - refine (proj1 (get_movie_sessions Demo.after_import 1)
              [Demo.stored_movie] Demo.stored_reviews Demo.stored_movie _ _ _);
      vm_compute; reflexivity.
  - refine (proj1 (proj2 (get_movie_sessions (Demo.fresh Demo.sample) 1)) _).
    reflexivity.
Defined.

(** C8 fails as stated: on a database without tables the request ends in
    an exception and leaves one session open. *)
Lemma get_movie_sessions_counterexample :
  let w := Demo.fresh Demo.sample in
  exists e w',
    get_movie 1 w = (Raise e, w') /\
    open_sessions w = 0 /\ open_sessions w' = 1.
Proof. cbv zeta. do 2 eexists. repeat split. Qed.




Section Appends.

Context {okt : Okt}.



Lemma create_tables_store (w : World) :
  store (snd (create_tables w)) =
  match movies (store w) with
  | Some _ => store w
  | None =>
      {| movies := Some [];
         reviews := Some (match reviews (store w) with Some rows => rows | None => [] end) |}
  end /\
  data_file (snd (create_tables w)) = data_file w /\
  fst (create_tables w) = Ok tt.
Proof.
  unfold create_tables, has_movies_table, create_all, get_store, put_store,
    print, ret, Db.bind. simpl.
  destruct (movies (store w)) eqn:E; simpl; rewrite ?E; repeat split.
Qed.







End Appends.



(* ================================================================== *)
(** * The two summary rows of a movie *)
(* ================================================================== *)

Section FixedGroups.

Context {okt : Okt}.

(** C2, as the code has it.  For a movie whose reviews all carry a
    sentiment field, [process_movie_data] gives the result, value or
    exception, of aggregating the reviews labelled positive or negative
    alone: a review with another label raises nothing and counts for
    nothing.  Whenever a turn of the import loop succeeds, it adds exactly
    two rows to the session, the positive one and the negative one, holding
    the ratios and summaries of that aggregation. *)
Theorem two_fixed_groups (movie_data : value) (reviews : list value) :
  getitem movie_data "리뷰" = Ok (VList reviews) ->
  Forall (fun r => is_ok (getitem r "감정") = true) reviews ->
  process_movie_data movie_data = aggregate (filter counted reviews) /\
  (forall db db' w w',
     import_movie db movie_data w = (Ok db', w') ->
     exists p,
       aggregate (filter counted reviews) = Ok p /\
       added db' =
         [PReview {| Review.o_classification := "긍정";
                     Review.o_ratio := positive_ratio p;
                     Review.o_summary := positive_summary p;
                     Review.o_movie_id := flushed_id db' |};
          PReview {| Review.o_classification := "부정";
                     Review.o_ratio := negative_ratio p;
                     Review.o_summary := negative_summary p;
                     Review.o_movie_id := flushed_id db' |}]).
Proof.
  intros Hf Hl.
  assert (E : process_movie_data movie_data = aggregate (filter counted reviews)).
  { unfold process_movie_data. rewrite Hf. simpl. now apply aggregate_counted. }
  split; [exact E|].
  intros db db' w w' H.
  destruct (import_movie_ok db db' movie_data w w' H) as (p & Hp & _ & Ha).
  exists p. split; [congruence | exact Ha].
Qed.

End FixedGroups.

(** [two_fixed_groups] on a movie with one review of a third label and one
    positive review. *)
Lemma two_fixed_groups_witness :
  @process_movie_data Demo.okt (Demo.movie "기생충" Demo.mixed)
    = @aggregate Demo.okt (filter counted Demo.mixed) /\
  (forall db db' w w',
     @import_movie Demo.okt db (Demo.movie "기생충" Demo.mixed) w = (Ok db', w') ->
     exists p,
       @aggregate Demo.okt (filter counted Demo.mixed) = Ok p /\
       added db' =
         [PReview {| Review.o_classification := "긍정";
                     Review.o_ratio := positive_ratio p;
                     Review.o_summary := positive_summary p;
                     Review.o_movie_id := flushed_id db' |};
          PReview {| Review.o_classification := "부정";
                     Review.o_ratio := negative_ratio p;
                     Review.o_summary := negative_summary p;
                     Review.o_movie_id := flushed_id db' |}]).
Proof.
  apply (@two_fixed_groups Demo.okt (Demo.movie "기생충" Demo.mixed) Demo.mixed).
  - reflexivity.
  - repeat constructor.
Defined.

(** C2 fails as stated: a review labelled [중립] is in the input, and the
    rows stored for the movie are the positive and the negative one only;
    the words of that review appear in no summary. *)
Lemma groups_counterexample :
  exists w rows,
    label_of (Demo.review "중립" "음악") = Some "중립" /\
    @main Demo.okt (Demo.fresh (VList [Demo.movie "기생충" Demo.mixed]))
      = (Ok tt, w) /\
    reviews (store w) = Some rows /\
    map Review.classification rows = ["긍정"; "부정"] /\
    map Review.summary rows = ["영화, 좋다"; ""] /\
    ~ In "중립" (map Review.classification rows).
Proof.
  do 2 eexists. split; [reflexivity|]. split; [vm_compute; reflexivity|].
  split; [reflexivity|]. split; [reflexivity|]. split; [reflexivity|].
  simpl. intros [H|[H|[]]]; discriminate.
Qed.

(* ================================================================== *)
(** * Empty inputs *)
(* ================================================================== *)

Section EmptyInputs.

Context {okt : Okt}.

Lemma top_words_nil (n : Z) : top_words [] n = Ok [].
Proof.
  unfold top_words, Counter.most_common; simpl.
  now rewrite firstn_nil.
Qed.

Lemma aggregate_nil :
  aggregate [] =
  Ok {| positive_summary := ""; negative_summary := "";
        positive_ratio := 0; negative_ratio := 0 |}.
Proof. reflexivity. Qed.

(** C9. [get_top_words] of no review is the empty string for every
    [n >= 1]; a movie whose review list is empty is processed without
    error, both summaries empty and both ratios 0, and the two rows its
    import adds to the session, one per sentiment class, carry that ratio 0
    and that empty summary. *)
Theorem empty_inputs (n : Z) (movie_data : value) :
  (1 <= n)%Z ->
  getitem movie_data "리뷰" = Ok (VList []) ->
  get_top_words [] n = Ok "" /\
  process_movie_data movie_data =
    Ok {| positive_summary := ""; negative_summary := "";
          positive_ratio := 0; negative_ratio := 0 |} /\
  (forall db db' w w',
     import_movie db movie_data w = (Ok db', w') ->
     added db' =
       [PReview {| Review.o_classification := "긍정"; Review.o_ratio := 0;
                   Review.o_summary := ""; Review.o_movie_id := flushed_id db' |};
        PReview {| Review.o_classification := "부정"; Review.o_ratio := 0;
                   Review.o_summary := ""; Review.o_movie_id := flushed_id db' |}]).
Proof.
  intros _ Hfield.
  assert (E : process_movie_data movie_data =
              Ok {| positive_summary := ""; negative_summary := "";
                    positive_ratio := 0; negative_ratio := 0 |}).
  { unfold process_movie_data. rewrite Hfield. simpl. apply aggregate_nil. }
  split; [|split].
  - unfold get_top_words. now rewrite top_words_nil.
  - exact E.
  - intros db db' w w' H.
    destruct (import_movie_ok db db' movie_data w w' H) as (p & Hp & _ & Ha).
    rewrite E in Hp. injection Hp as <-. exact Ha.
Qed.

End EmptyInputs.

Lemma empty_inputs_witness :
  @get_top_words Demo.okt [] 10 = Ok "" /\
  @process_movie_data Demo.okt (Demo.movie "기생충" []) =
    Ok {| positive_summary := ""; negative_summary := "";
          positive_ratio := 0; negative_ratio := 0 |} /\
  (forall db db' w w',
     @import_movie Demo.okt db (Demo.movie "기생충" []) w = (Ok db', w') ->
     added db' =
       [PReview {| Review.o_classification := "긍정"; Review.o_ratio := 0;
                   Review.o_summary := ""; Review.o_movie_id := flushed_id db' |};
        PReview {| Review.o_classification := "부정"; Review.o_ratio := 0;
                   Review.o_summary := ""; Review.o_movie_id := flushed_id db' |}]).
Proof.
  apply (@empty_inputs Demo.okt 10 (Demo.movie "기생충" [])).
  - lia.
  - reflexivity.
Defined.

Example empty_movie_rows :
  option_map (map (fun r => (Review.classification r, Review.ratio r, Review.summary r)))
    (reviews (store (snd (@main Demo.okt (Demo.fresh (VList [Demo.movie "괴물" []]))))))
  = Some [("긍정", 0%Q, ""); ("부정", 0%Q, "")].
Proof. vm_compute. reflexivity. Qed.

(* ================================================================== *)
(** * The read handlers *)
(* ================================================================== *)

Lemma world_eta (w : World) :
  {| data_file := data_file w; store := store w;
     open_sessions := open_sessions w; stdout := stdout w |} = w.
Proof. now destruct w. Qed.

(** X1.  On a store with a movies table, [get_movies] returns one entry per
    movie row, in row order, holding the row's id, title and poster, and
    leaves the world as it found it; without the table it raises
    [OperationalError] and leaves its session open. *)
Theorem get_movies_lists_rows (w : World) :
  (forall ms, movies (store w) = Some ms ->
              get_movies w = (Ok (VList (map movie_entry ms)), w)) /\
  (movies (store w) = None ->
   get_movies w =
   (Raise (OperationalError "no such table: movies"), with_session w)).
Proof.
  unfold get_movies, SessionLocal, query_movies, get_store, close, ret, raise,
    Db.bind; simpl.
  split.
  - intros ms Hm. rewrite Hm. simpl. rewrite app_nil_r.
    now rewrite close_after_open.
  - intros Hm. rewrite Hm. reflexivity.
Qed.

Lemma get_movies_lists_rows_witness :
  get_movies Demo.after_import =
  (Ok (VList [VDict [("id", VInt 1); ("title", VStr "기생충");
                     ("poster_url", VStr "poster.jpg")]]),
   Demo.after_import) /\
  get_movies (Demo.fresh Demo.sample) =
  (Raise (OperationalError "no such table: movies"),
   with_session (Demo.fresh Demo.sample)).
Proof.
  split.
  - refine (proj1 (get_movies_lists_rows Demo.after_import) [Demo.stored_movie] _).
    vm_compute. reflexivity.
  - refine (proj2 (get_movies_lists_rows (Demo.fresh Demo.sample)) _).
    reflexivity.
Defined.

(** X2.  Neither handler writes: whatever the store holds and whatever the
    outcome, [get_movie] and [get_movies] leave the data file, the store and
    the console as they were, and at most one session more open. *)
Theorem handlers_read_only (w : World) (movie_id : Z) :
  (same_data w (snd (get_movie movie_id w)) /\
   open_sessions w <= open_sessions (snd (get_movie movie_id w))
     <= S (open_sessions w)) /\
  (same_data w (snd (get_movies w)) /\
   open_sessions w <= open_sessions (snd (get_movies w)) <= S (open_sessions w)).
Proof.
  unfold same_data, get_movie, get_movies, SessionLocal, query_movies,
    query_reviews, get_store, close, ret, raise, Db.bind; simpl.
  destruct (movies (store w)) as [ms|]; simpl.
  - split; [|repeat split; lia].
    destruct (find _ (ms ++ [])) as [m|]; simpl; [|repeat split; lia].
    destruct (reviews (store w)) as [rs|]; simpl; repeat split; lia.
  - repeat split; lia.
Qed.

(* ================================================================== *)
(** * Creating the tables *)
(* ================================================================== *)

(** X3.  [create_tables] never raises and never drops a row.  When the
    movies table is absent it creates every absent table, empty; when the
    movies table is present it changes nothing in the store, so a reviews
    table that is absent stays absent.  Run a second time it leaves the
    store as the first run left it and prints that it skips the creation. *)
Theorem create_tables_idempotent (w : World) :
  let w1 := snd (create_tables w) in
  let w2 := snd (create_tables w1) in
  fst (create_tables w) = Ok tt /\
  (movies (store w) = None ->
   store w1 =
   {| movies := Some [];
      reviews := Some (match reviews (store w) with
                       | Some rows => rows
                       | None => []
                       end) |} /\
   stdout w1 = stdout w ++ ["Tables created."]) /\
  (forall ms, movies (store w) = Some ms ->
              store w1 = store w /\
              stdout w1 = stdout w ++ ["Tables already exist. Skipping creation."]) /\
  store w2 = store w1 /\
  stdout w2 = stdout w1 ++ ["Tables already exist. Skipping creation."].
Proof.
  unfold create_tables, has_movies_table, create_all, get_store, put_store,
    print, ret, Db.bind. simpl.
  destruct (movies (store w)) as [ms|] eqn:E; simpl; rewrite ?E; simpl.
  - repeat split; try discriminate; intros; reflexivity.
  - repeat split; try discriminate; intros; reflexivity.
Qed.

Lemma create_tables_idempotent_witness :
  store (snd (create_tables (Demo.fresh Demo.sample))) =
    {| movies := Some []; reviews := Some [] |} /\
  stdout (snd (create_tables (Demo.fresh Demo.sample))) = ["Tables created."].
Proof.
  exact (proj1 (proj2 (create_tables_idempotent (Demo.fresh Demo.sample))) eq_refl).
Defined.

(* ================================================================== *)
(** * What the import does not do *)
(* ================================================================== *)

Section ImportFrame.

Context {okt : Okt}.

Lemma commit_world (db : Session) (w : World) :
  data_file (snd (commit db w)) = data_file w /\
  stdout (snd (commit db w)) = stdout w /\
  open_sessions (snd (commit db w)) = open_sessions w /\
  (is_ok (fst (commit db w)) = false -> store (snd (commit db w)) = store w).
Proof.
  unfold commit, flush, get_store, put_store, ret, Db.bind.
  match goal with
  | |- context [Py.bind ?m ?k] => destruct (Py.bind m k)
  end; simpl; repeat split; intros; try discriminate; reflexivity.
Qed.

(** X4.  The import is all or nothing: when [load_and_process_data] raises,
    for whatever reason, the store is as it was before the call.  Whether it
    raises or not, it changes neither the data file nor the console. *)
Theorem import_atomic (w : World) :
  data_file (snd (load_and_process_data w)) = data_file w /\
  stdout (snd (load_and_process_data w)) = stdout w /\
  (is_ok (fst (load_and_process_data w)) = false ->
   store (snd (load_and_process_data w)) = store w).
Proof.
  unfold load_and_process_data, read_data, SessionLocal, lift, close, Db.bind.
  destruct (data_file w) as [|msg|data] eqn:Ef; simpl; rewrite ?Ef; auto.
  destruct (iter data) as [items|e]; simpl; auto.
  match goal with
  | |- context [import_movies ?d items ?w1] =>
      pose proof (import_movies_world items d w1) as Hw;
      destruct (import_movies d items w1) as [[db1|e] w2]
  end; simpl in Hw; subst w2; simpl; auto.
  match goal with
  | |- context [commit db1 ?w1] =>
      destruct (commit_world db1 w1) as (Hd & Ho & _ & Hs);
      destruct (commit db1 w1) as [[db2|e] w3]
  end; simpl in *.
  - repeat split; auto.
  - repeat split; auto.
Qed.

(** X5.  What the import does on a data file it cannot use.  A missing
    file raises [FileNotFoundError] and a malformed one [JSONDecodeError],
    both before a session is opened, so the world is untouched; parsed data
    that cannot be iterated raises after the session is opened and leaves it
    open; an empty list is imported without error and changes nothing, on
    any store. *)
Theorem import_unusable_file (w : World) :
  (data_file w = Missing ->
   load_and_process_data w = (Raise (FileNotFoundError data_file_path), w)) /\
  (forall msg, data_file w = Malformed msg ->
               load_and_process_data w = (Raise (JSONDecodeError msg), w)) /\
  (forall data e, data_file w = Parsed data -> iter data = Raise e ->
                  load_and_process_data w = (Raise e, with_session w)) /\
  (forall data, data_file w = Parsed data -> iter data = Ok [] ->
                load_and_process_data w = (Ok tt, w)).
Proof.
  unfold load_and_process_data, read_data, SessionLocal, lift, commit, flush,
    get_store, put_store, close, ret, Db.bind.
  repeat split.
  - intros H. now rewrite H.
  - intros msg H. now rewrite H.
  - intros data e H Hi. rewrite H, Hi. reflexivity.
  - intros data H Hi. rewrite H, Hi. simpl. f_equal.
    destruct w as [f [m r] n o]; simpl.
    destruct m, r; simpl; rewrite ?app_nil_r; reflexivity.
Qed.

Lemma import_movies_stops (data : list value) (movie_data : value)
  (db : Session) (w : World) :
  In movie_data data ->
  (forall db0, is_ok (fst (import_movie db0 movie_data w)) = false) ->
  is_ok (fst (import_movies db data w)) = false.
Proof.
  intros Hin Hbad. revert db. induction data as [|m data IH]; intros db;
    [destruct Hin|]. simpl. unfold Db.bind.
  pose proof (import_movie_world db m w) as Hw.
  destruct (import_movie db m w) as [[db'|e] w1] eqn:E; simpl in Hw; subst w1;
    [|reflexivity].
  destruct Hin as [->|Hin]; [|now apply IH].
  specialize (Hbad db). rewrite E in Hbad. discriminate.
Qed.

Lemma load_stops (w : World) (data movie_data : value) (movies : list value) :
  data_file w = Parsed data ->
  iter data = Ok movies ->
  In movie_data movies ->
  (forall db0 w0, is_ok (fst (import_movie db0 movie_data w0)) = false) ->
  exists e, load_and_process_data w = (Raise e, with_session w).
Proof.
  intros Hfile Hiter Hin Hbad.
  unfold load_and_process_data, Db.bind, read_data, SessionLocal, lift.
  rewrite Hfile, Hiter.
  match goal with
  | |- context [import_movies ?d movies ?w1] =>
      pose proof (import_movies_world movies d w1) as Hw;
      pose proof (import_movies_stops movies movie_data d w1 Hin
                    (fun db0 => Hbad db0 w1)) as Hr;
      destruct (import_movies d movies w1) as [[db'|e] w2]
  end; simpl in Hw, Hr; [discriminate|].
  subst w2. exists e. reflexivity.
Qed.

Lemma getitem_missing (d : list (string * value)) (k : string) :
  lookup k d = None -> getitem (VDict d) k = Raise (KeyError k).
Proof. intros H. simpl. now rewrite H. Qed.

Lemma getitem_present (d : list (string * value)) (k : string) :
  lookup k d <> None -> exists v, getitem (VDict d) k = Ok v.
Proof.
  intros H. simpl. destruct (lookup k d) as [v|]; [now exists v | congruence].
Qed.

(** The exception of a movie record that lacks a metadata key. *)
Lemma import_movie_missing_key (db : Session) (w : World)
  (d : list (string * value)) (p : Processed) (pre post : list string)
  (k : string) :
  process_movie_data (VDict d) = Ok p ->
  metadata_keys = pre ++ k :: post ->
  Forall (fun k' => lookup k' d <> None) pre ->
  lookup k d = None ->
  import_movie db (VDict d) w = (Raise (KeyError k), w).
Proof.
  intros Hp Hk Hpre Hmiss.
  unfold import_movie, lift, Db.bind. rewrite Hp.
  unfold metadata_keys in Hk.
  repeat (destruct pre as [|? pre];
          [ injection Hk as <- _; rewrite (getitem_missing d _ Hmiss); reflexivity
          | injection Hk as <- Hk;
            let v := fresh "v" in
            let E := fresh "E" in
            destruct (getitem_present d _ (Forall_inv Hpre)) as [v E];
            rewrite E; apply Forall_inv_tail in Hpre ]).
  destruct pre; discriminate.
Qed.

(** X6.  Every metadata key is required.  A movie record that lacks the
    review list or one of the eight metadata keys aborts the import: the
    run raises and the store is as it was.  When the reviews of the record
    aggregate without error, the exception is the [KeyError] of the first
    metadata key that is missing, in the order the keys are read. *)
Theorem missing_metadata_aborts_import
  (w : World) (data : value) (movies : list value)
  (d : list (string * value)) (k : string) :
  data_file w = Parsed data ->
  iter data = Ok movies ->
  In (VDict d) movies ->
  In k ("리뷰" :: metadata_keys) ->
  lookup k d = None ->
  (exists e, load_and_process_data w = (Raise e, with_session w)) /\
  (forall db p pre post,
     process_movie_data (VDict d) = Ok p ->
     metadata_keys = pre ++ k :: post ->
     Forall (fun k' => lookup k' d <> None) pre ->
     import_movie db (VDict d) w = (Raise (KeyError k), w)).
Proof.
  intros Hfile Hiter Hin Hk Hmiss. split.
  - apply (load_stops w data (VDict d) movies Hfile Hiter Hin).
    intros db0 w0. unfold import_movie, lift, Db.bind.
    destruct (process_movie_data (VDict d)) as [p|e] eqn:Hp; [|reflexivity].
    destruct Hk as [<-|Hk].
    { unfold process_movie_data in Hp.
      rewrite (getitem_missing d _ Hmiss) in Hp. discriminate. }
    unfold metadata_keys in Hk. simpl in Hk.
    repeat match goal with
           | |- context [getitem (VDict d) ?k'] =>
               destruct (getitem (VDict d) k') eqn:?; [|reflexivity]
           end.
    exfalso.
    repeat (destruct Hk as [<-|Hk];
            [ rewrite (getitem_missing d _ Hmiss) in *; discriminate |]).
    destruct Hk.
  - intros db p pre post Hp Hkeys Hpre.
    exact (import_movie_missing_key db w d p pre post k Hp Hkeys Hpre Hmiss).
Qed.

End ImportFrame.

Lemma import_unusable_file_witness :
  @load_and_process_data Demo.okt
    {| data_file := Parsed (VInt 3);
       store := {| movies := Some []; reviews := Some [] |};
       open_sessions := 0; stdout := [] |} =
  (Raise (TypeError "object is not iterable"),
   with_session {| data_file := Parsed (VInt 3);
                   store := {| movies := Some []; reviews := Some [] |};
                   open_sessions := 0; stdout := [] |}).
Proof.
  refine (proj1 (proj2 (proj2 (@import_unusable_file Demo.okt _))) (VInt 3) _ _ _);
    reflexivity.
Defined.


Lemma missing_metadata_aborts_import_witness :
  let d := [("영화명", VStr "괴물"); ("포스터", VStr "p.jpg");
            ("개봉년도", VStr "2006"); ("리뷰", VList [])] in
  let w := Demo.empty_tables (VList [VDict d]) in
  (exists e, @load_and_process_data Demo.okt w = (Raise e, with_session w)) /\
  (forall db p pre post,
     @process_movie_data Demo.okt (VDict d) = Ok p ->
     metadata_keys = pre ++ "상영시간" :: post ->
     Forall (fun k' => lookup k' d <> None) pre ->
     @import_movie Demo.okt db (VDict d) w = (Raise (KeyError "상영시간"), w)).
Proof.
  intros d w.
  apply (@missing_metadata_aborts_import Demo.okt w (VList [VDict d]) [VDict d] d
           "상영시간"); try reflexivity; simpl; auto.
Defined.

Example missing_key_is_first :
  @main Demo.okt
    (Demo.fresh (VList [VDict [("영화명", VStr "괴물"); ("포스터", VStr "p.jpg");
                               ("개봉년도", VStr "2006"); ("리뷰", VList [])]]))
  = (Raise (KeyError "상영시간"),
     {| data_file := Parsed (VList [VDict [("영화명", VStr "괴물"); ("포스터", VStr "p.jpg");
                               ("개봉년도", VStr "2006"); ("리뷰", VList [])]]);
        store := {| movies := Some []; reviews := Some [] |};
        open_sessions := 1; stdout := ["Tables created."] |}).
Proof. vm_compute. reflexivity. Qed.

(* ================================================================== *)
(** * The rows the import stores *)
(* ================================================================== *)

Lemma next_id_max (ids : list Z) : next_id ids = (max_id ids + 1)%Z.
Proof. destruct ids; reflexivity. Qed.

(** The new rowid follows the largest one also when every rowid in the
    table is negative. *)
Example next_id_after_negative : next_id [(-5)%Z; (-3)%Z] = (-2)%Z.
Proof. reflexivity. Qed.

(** An [int] outside the 64-bit range is refused when it is bound. *)
Example bind_param_too_large :
  bind_param (VInt 9223372036854775808)
  = Raise (OverflowError "Python int too large to convert to SQLite INTEGER").
Proof. reflexivity. Qed.

Lemma fold_max_ge (l : list Z) (y x : Z) :
  x = y \/ In x l -> (x <= fold_right Z.max y l)%Z.
Proof.
  induction l as [|a l IH]; simpl.
  - intros [->|[]]. lia.
  - intros [H|[->|H]]; [specialize (IH (or_introl H)) | | specialize (IH (or_intror H))];
      lia.
Qed.

Lemma max_id_ge (l : list Z) (x : Z) : In x l -> (x <= max_id l)%Z.
Proof.
  destruct l as [|y l]; simpl; [tauto|].
  intros [->|H]; apply fold_max_ge; auto.
Qed.

Lemma fold_max_snoc (l : list Z) (y x : Z) :
  fold_right Z.max y (l ++ [x]) = Z.max (fold_right Z.max y l) x.
Proof. induction l as [|a l IH]; simpl; [lia|]. rewrite IH. lia. Qed.

Lemma max_id_snoc (l : list Z) (x : Z) :
  max_id (l ++ [x]) =
  match l with
  | [] => x
  | _ :: _ => Z.max (max_id l) x
  end.
Proof. destruct l as [|y l]; simpl; [reflexivity|]. apply fold_max_snoc. Qed.

Lemma ids_from_length (base : Z) (n : nat) : length (ids_from base n) = n.
Proof. unfold ids_from. now rewrite length_map, length_seq. Qed.

Lemma ids_from_snoc (base : Z) (n : nat) :
  ids_from base (S n) = ids_from base n ++ [(base + Z.of_nat (S n))%Z].
Proof. unfold ids_from. rewrite seq_S, map_app. reflexivity. Qed.

Lemma ids_from_In (base x : Z) (n : nat) :
  In x (ids_from base n) <-> (base < x <= base + Z.of_nat n)%Z.
Proof.
  unfold ids_from. rewrite in_map_iff. split.
  - intros (k & <- & Hk). apply in_seq in Hk. lia.
  - intros H. exists (Z.to_nat (x - base)). split; [lia|].
    apply in_seq. lia.
Qed.

Lemma ids_from_NoDup (base : Z) (n : nat) : NoDup (ids_from base n).
Proof.
  induction n as [|n IH]; [constructor|].
  rewrite ids_from_snoc. apply NoDup_app_remove_l with (l := []). simpl.
  apply Permutation_NoDup with (l := (base + Z.of_nat (S n))%Z :: ids_from base n).
  - apply Permutation_cons_append.
  - constructor; [|exact IH]. rewrite ids_from_In. lia.
Qed.

Lemma max_id_ids_from (l : list Z) (n : nat) :
  max_id (l ++ ids_from (max_id l) n) = (max_id l + Z.of_nat n)%Z.
Proof.
  induction n as [|n IH].
  - unfold ids_from. simpl. rewrite app_nil_r. lia.
  - rewrite ids_from_snoc, app_assoc, max_id_snoc.
    destruct (l ++ ids_from (max_id l) n) as [|y l'] eqn:E.
    + apply app_eq_nil in E. destruct E as [-> E].
      apply (f_equal (@length Z)) in E. rewrite ids_from_length in E.
      simpl in E. subst n. reflexivity.
    + rewrite IH. lia.
Qed.

(** The review rows a flush inserts: the contents of the objects added, in
    order, under the next rowids. *)
Lemma flush_reviews_rows (rs tx tx' : list Review.t) (l : list Review.obj) :
  flush_reviews (Some rs) tx l = Ok tx' ->
  map Review.id tx = ids_from (max_id (map Review.id rs)) (length tx) ->
  map Review.id tx' = ids_from (max_id (map Review.id rs)) (length tx') /\
  map review_content tx' = map review_content tx ++ map obj_content l.
Proof.
  revert tx. induction l as [|r l IH]; simpl; intros tx H Hids.
  - injection H as <-. now rewrite app_nil_r.
  - apply IH in H.
    + destruct H as [H1 H2]. split; [exact H1|].
      rewrite H2, map_app, <- app_assoc. reflexivity.
    + rewrite map_app, length_app, Nat.add_1_r, ids_from_snoc, <- Hids. simpl.
      f_equal. unfold insert_review. simpl. f_equal.
      rewrite next_id_max, map_app, Hids, max_id_ids_from. lia.
Qed.

Lemma flush_reviews_total (rs tx : list Review.t) (l : list Review.obj) :
  exists tx', flush_reviews (Some rs) tx l = Ok tx'.
Proof.
  revert tx. induction l as [|r l IH]; simpl; intros tx; eauto.
Qed.

Lemma bind_param_stored (movie_data x v : value) (key : string) :
  getitem movie_data key = Ok x -> bind_param x = Ok v ->
  stored_as movie_data key v.
Proof. intros H1 H2. now exists x. Qed.

Lemma stored_as_text (movie_data v : value) (key : string) :
  typed_at movie_data key text_or_null = true ->
  stored_as movie_data key v -> getitem movie_data key = Ok v.
Proof.
  unfold typed_at. intros Ht (x & Hx & Hb). rewrite Hx in *.
  destruct x; try discriminate; simpl in Hb; congruence.
Qed.

Lemma stored_as_int (movie_data v : value) (key : string) :
  typed_at movie_data key int_or_null = true ->
  stored_as movie_data key v -> getitem movie_data key = Ok v.
Proof.
  unfold typed_at. intros Ht (x & Hx & Hb). rewrite Hx in *.
  destruct x; try discriminate; simpl in Hb; [congruence|].
  destruct ((_ <=? z) && (z <=? _))%Z; [congruence | discriminate].
Qed.

(** On a well-typed record, what is stored is what the record holds. *)
Lemma movie_matches_typed (movie_data : value) (m : Movie.t) :
  well_typed movie_data = true ->
  movie_matches movie_data m -> holds_metadata movie_data m.
Proof.
  unfold well_typed. simpl. rewrite !andb_true_iff.
  intros ((H1 & H2 & H3 & H4 & H5 & H6 & H7 & _) & H8)
         (M1 & M2 & M3 & M4 & M5 & M6 & M7 & M8 & Ma & Mr).
  unfold holds_metadata.
  repeat split; auto using stored_as_text, stored_as_int.
Qed.

Lemma movies_match_typed (items : list value) (new : list Movie.t) :
  Forall (fun item => well_typed item = true) items ->
  Forall2 movie_matches items new -> Forall2 holds_metadata items new.
Proof.
  intros Ht H. induction H as [|item m items new Hm _ IH]; constructor.
  - apply movie_matches_typed; [exact (Forall_inv Ht) | exact Hm].
  - apply IH. exact (Forall_inv_tail Ht).
Qed.

Section ImportRows.

Context {okt : Okt}.

(** One turn of the import loop on a store with both tables. *)
Lemma import_movie_step (db db' : Session) (movie_data : value) (w w' : World)
  (ms : list Movie.t) (rs : list Review.t) :
  movies (store w) = Some ms ->
  reviews (store w) = Some rs ->
  pending_movies (added db) = [] ->
  map Review.id (tx_reviews db)
    = ids_from (max_id (map Review.id rs)) (length (tx_reviews db)) ->
  import_movie db movie_data w = (Ok db', w') ->
  exists m p,
    processed_as movie_data p /\
    movie_matches movie_data m /\
    Movie.id m = next_id (map Movie.id (ms ++ tx_movies db)) /\
    tx_movies db' = tx_movies db ++ [m] /\
    pending_movies (added db') = [] /\
    map Review.id (tx_reviews db')
      = ids_from (max_id (map Review.id rs)) (length (tx_reviews db')) /\
    map review_content (tx_reviews db')
      ++ map obj_content (pending_reviews (added db'))
    = (map review_content (tx_reviews db)
         ++ map obj_content (pending_reviews (added db)))
        ++ summary_rows (Movie.id m) p.
Proof.
  intros Hm Hr Hpm Hids.
  unfold import_movie, Db.bind, lift, ret.
  destruct (process_movie_data movie_data) as [p|e] eqn:Hp; [|discriminate].
  destruct (getitem movie_data "영화명") as [x1|] eqn:E1; [|discriminate].
  destruct (getitem movie_data "포스터") as [x2|] eqn:E2; [|discriminate].
  destruct (getitem movie_data "상영시간") as [x3|] eqn:E3; [|discriminate].
  destruct (getitem movie_data "개봉년도") as [x4|] eqn:E4; [|discriminate].
  destruct (getitem movie_data "줄거리") as [x5|] eqn:E5; [|discriminate].
  destruct (getitem movie_data "장르") as [x6|] eqn:E6; [|discriminate].
  destruct (getitem movie_data "평점") as [x7|] eqn:E7; [|discriminate].
  destruct (getitem movie_data "관객수") as [x8|] eqn:E8; [|discriminate].
  unfold flush, add. simpl. rewrite Hm, Hr.
  unfold pending_movies, pending_reviews in *.
  rewrite !flat_map_app. simpl. rewrite Hpm, !app_nil_r. simpl.
  unfold insert_movie. simpl.
  destruct (bind_param x1) as [v1|] eqn:B1; [|discriminate].
  destruct (bind_param x2) as [v2|] eqn:B2; [|discriminate].
  destruct (bind_param x3) as [v3|] eqn:B3; [|discriminate].
  destruct (bind_param x4) as [v4|] eqn:B4; [|discriminate].
  destruct (bind_param x5) as [v5|] eqn:B5; [|discriminate].
  destruct (bind_param x6) as [v6|] eqn:B6; [|discriminate].
  destruct (bind_param x7) as [v7|] eqn:B7; [|discriminate].
  destruct (bind_param x8) as [v8|] eqn:B8; [|discriminate].
  simpl.
  match goal with
  | |- context [flush_reviews (Some rs) ?tx ?l] =>
      destruct (flush_reviews (Some rs) tx l) as [tr|e] eqn:F; [|discriminate]
  end.
  apply flush_reviews_rows in F; [|exact Hids]. destruct F as [F1 F2].
  simpl. intros H. injection H as <- <-. simpl.
  exists {| Movie.id := next_id (map Movie.id (ms ++ tx_movies db));
            Movie.title := v1; Movie.poster_url := v2;
            Movie.age_limit := VStr "없음"; Movie.running_time := v3;
            Movie.release_date := v4; Movie.synopsis := v5;
            Movie.recommended_movies := VStr "없음"; Movie.genre := v6;
            Movie.rating := v7; Movie.audience := v8 |}.
  exists p. split; [exact Hp|].
  split.
  { unfold movie_matches. simpl.
    repeat split; eauto using bind_param_stored. }
  simpl. repeat split; try assumption.
  rewrite F2. unfold summary_rows, obj_content, flushed_id. simpl.
  rewrite rev_unit. simpl. now rewrite <- app_assoc.
Qed.

Lemma Forall2_snoc {A B} (R : A -> B -> Prop) (l : list A) (l' : list B)
  (x : A) (y : B) :
  Forall2 R l l' -> R x y -> Forall2 R (l ++ [x]) (l' ++ [y]).
Proof. intros H Hxy. apply Forall2_app; [exact H | now constructor]. Qed.

(** The import loop on a store with both tables: the transaction gains one
    movie row per record, under consecutive rowids, and the session the
    contents of two review rows per record. *)
Lemma import_movies_steps (items : list value) (db db' : Session) (w w' : World)
  (ms : list Movie.t) (rs : list Review.t) :
  movies (store w) = Some ms ->
  reviews (store w) = Some rs ->
  pending_movies (added db) = [] ->
  map Movie.id (tx_movies db)
    = ids_from (max_id (map Movie.id ms)) (length (tx_movies db)) ->
  map Review.id (tx_reviews db)
    = ids_from (max_id (map Review.id rs)) (length (tx_reviews db)) ->
  import_movies db items w = (Ok db', w') ->
  exists new ps,
    tx_movies db' = tx_movies db ++ new /\
    Forall2 movie_matches items new /\
    Forall2 processed_as items ps /\
    pending_movies (added db') = [] /\
    map Movie.id (tx_movies db')
      = ids_from (max_id (map Movie.id ms)) (length (tx_movies db')) /\
    map Review.id (tx_reviews db')
      = ids_from (max_id (map Review.id rs)) (length (tx_reviews db')) /\
    map review_content (tx_reviews db')
      ++ map obj_content (pending_reviews (added db'))
    = (map review_content (tx_reviews db)
         ++ map obj_content (pending_reviews (added db)))
        ++ flat_map (fun mp => summary_rows (Movie.id (fst mp)) (snd mp))
             (combine new ps).
Proof.
  intros Hm Hr. revert db.
  induction items as [|item items IH]; simpl; intros db Hpm Him Hir H.
  - injection H as <- <-. exists [], []. simpl. rewrite !app_nil_r.
    repeat split; auto.
  - unfold Db.bind in H.
    destruct (import_movie db item w) as [[db1|e] w1] eqn:E; [|discriminate].
    pose proof (import_movie_world db item w) as Hw.
    rewrite E in Hw. simpl in Hw. subst w1.
    destruct (import_movie_step _ _ _ _ _ ms rs Hm Hr Hpm Hir E)
      as (m & p & Hp & Hmm & Hid & Htx & Hpm1 & Hir1 & Hc1).
    assert (Him1 : map Movie.id (tx_movies db1)
                   = ids_from (max_id (map Movie.id ms)) (length (tx_movies db1))).
    { rewrite Htx, map_app, length_app, Nat.add_1_r, ids_from_snoc, <- Him.
      simpl. f_equal. rewrite Hid.
      rewrite next_id_max, map_app, Him, max_id_ids_from. f_equal. lia. }
    destruct (IH db1 Hpm1 Him1 Hir1 H)
      as (new & ps & Htx' & Hmm' & Hps' & Hpm' & Him' & Hir' & Hc').
    exists (m :: new), (p :: ps).
    split; [rewrite Htx', Htx, <- app_assoc; reflexivity|].
    split; [now constructor|]. split; [now constructor|].
    split; [exact Hpm'|]. split; [exact Him'|]. split; [exact Hir'|].
    rewrite Hc', Hc1. simpl. now rewrite <- !app_assoc.
Qed.

(** The rows [load_and_process_data] stores, when it returns. *)
Lemma load_rows (w w' : World) (data : value) (items : list value)
  (ms : list Movie.t) (rs : list Review.t) :
  movies (store w) = Some ms ->
  reviews (store w) = Some rs ->
  data_file w = Parsed data ->
  iter data = Ok items ->
  load_and_process_data w = (Ok tt, w') ->
  exists new_movies ps new_reviews,
    w' = {| data_file := data_file w;
            store := {| movies := Some (ms ++ new_movies);
                        reviews := Some (rs ++ new_reviews) |};
            open_sessions := open_sessions w;
            stdout := stdout w |} /\
    Forall2 movie_matches items new_movies /\
    Forall2 processed_as items ps /\
    map Movie.id new_movies
      = ids_from (max_id (map Movie.id ms)) (length items) /\
    map Review.id new_reviews
      = ids_from (max_id (map Review.id rs)) (2 * length items) /\
    map review_content new_reviews
      = flat_map (fun mp => summary_rows (Movie.id (fst mp)) (snd mp))
          (combine new_movies ps).
Proof.
  intros Hm Hr Hfile Hiter.
  unfold load_and_process_data, read_data, SessionLocal, lift, commit,
    get_store, put_store, close, ret, Db.bind.
  rewrite Hfile, Hiter.
  match goal with
  | |- context [import_movies ?d items ?w2] =>
      pose proof (import_movies_world items d w2) as Hw;
      destruct (import_movies d items w2) as [[db1|e] w3] eqn:E; [|discriminate]
  end.
  simpl in Hw. subst w3.
  apply (import_movies_steps items _ _ _ _ ms rs) in E; try reflexivity;
    try assumption.
  destruct E as (new & ps & Htx & Hmm & Hps & Hpm & Him & Hir & Hc).
  simpl in Htx, Hc.
  unfold flush. simpl. rewrite Hm, Hr, Hpm. simpl.
  destruct (flush_reviews_total rs (tx_reviews db1) (pending_reviews (added db1)))
    as [tr F].
  rewrite F. simpl.
  apply flush_reviews_rows in F; [|exact Hir]. destruct F as [F1 F2].
  intros H. injection H as <-.
  exists new, ps, tr.
  assert (Hlen : length new = length items).
  { symmetry. exact (Forall2_length Hmm). }
  assert (Hlps : length ps = length items).
  { symmetry. exact (Forall2_length Hps). }
  split; [rewrite Htx, <- Hfile; reflexivity|].
  split; [exact Hmm|]. split; [exact Hps|].
  split; [rewrite <- Htx, Him, Htx, Hlen; reflexivity|].
  assert (Hcont : map review_content tr
                  = flat_map (fun mp => summary_rows (Movie.id (fst mp)) (snd mp))
                      (combine new ps)).
  { rewrite F2. exact Hc. }
  split; [|exact Hcont].
  rewrite F1. f_equal.
  rewrite <- (length_map review_content tr), Hcont.
  clear - Hlen Hlps. revert ps items Hlen Hlps.
  induction new as [|m new IH]; intros [|p ps] [|i items] H1 H2;
    simpl in *; try discriminate; [reflexivity|].
  rewrite (IH ps items) by lia. lia.
Qed.

(** X7.  What a successful import stores.  Take a store with both tables,
    with room for the new rowids, and a data file whose records have
    metadata of the column types.  When [load_and_process_data] returns, the
    tables hold the rows they held followed by the new ones and nothing
    else in the world has changed.  There is one new movie row per record
    of the data file, in order, holding the record's eight metadata values
    and the default [없음] for the age limit and the recommended movies,
    under the rowids that follow the largest in the table.  There are two
    new review rows per record, a positive one then a negative one, holding
    the ratios and summaries of [process_movie_data] on that record and the
    key of that record's movie row. *)
Theorem import_rows (w w' : World) (data : value) (items : list value)
  (ms : list Movie.t) (rs : list Review.t) :
  movies (store w) = Some ms ->
  reviews (store w) = Some rs ->
  data_file w = Parsed data ->
  iter data = Ok items ->
  Forall (fun item => well_typed item = true) items ->
  rowids_left (map Movie.id ms) (length items) ->
  rowids_left (map Review.id rs) (2 * length items) ->
  load_and_process_data w = (Ok tt, w') ->
  exists new_movies ps new_reviews,
    w' = {| data_file := data_file w;
            store := {| movies := Some (ms ++ new_movies);
                        reviews := Some (rs ++ new_reviews) |};
            open_sessions := open_sessions w;
            stdout := stdout w |} /\
    Forall2 holds_metadata items new_movies /\
    Forall2 processed_as items ps /\
    map Movie.id new_movies
      = ids_from (max_id (map Movie.id ms)) (length items) /\
    map Review.id new_reviews
      = ids_from (max_id (map Review.id rs)) (2 * length items) /\
    map review_content new_reviews
      = flat_map (fun mp => summary_rows (Movie.id (fst mp)) (snd mp))
          (combine new_movies ps).
Proof.
  intros Hm Hr Hfile Hiter Htyped _ _ Hload.
  destruct (load_rows w w' data items ms rs Hm Hr Hfile Hiter Hload)
    as (new & ps & newr & Hw & Hmm & Hrest).
  exists new, ps, newr. split; [exact Hw|].
  split; [exact (movies_match_typed items new Htyped Hmm) | exact Hrest].
Qed.

End ImportRows.

(* ================================================================== *)
(** * Reading back what was imported *)
(* ================================================================== *)

Lemma ids_from_nth (base : Z) (n i : nat) :
  i < n -> nth_error (ids_from base n) i = Some (base + Z.of_nat (S i))%Z.
Proof.
  intros H. unfold ids_from. rewrite nth_error_map.
  rewrite (nth_error_nth' (seq 1 n) 0) by (now rewrite length_seq).
  rewrite seq_nth by exact H. reflexivity.
Qed.

Lemma Forall2_nth_error {A B} (R : A -> B -> Prop) (l : list A) (l' : list B)
  (i : nat) (x : A) :
  Forall2 R l l' -> nth_error l i = Some x ->
  exists y, nth_error l' i = Some y /\ R x y.
Proof.
  intros H. revert i. induction H as [|a b l l' Hab _ IH]; intros [|i] Hi;
    simpl in *; try discriminate.
  - injection Hi as <-. now exists b.
  - now apply IH.
Qed.

Lemma find_app_skip (ms new : list Movie.t) (x : Z) :
  ~ In x (map Movie.id ms) ->
  find (fun m => (Movie.id m =? x)%Z) (ms ++ new)
  = find (fun m => (Movie.id m =? x)%Z) new.
Proof.
  induction ms as [|m ms IH]; simpl; intros H; [reflexivity|].
  destruct (Z.eqb_spec (Movie.id m) x) as [E|_]; [tauto|].
  apply IH. tauto.
Qed.

Lemma find_by_key (new : list Movie.t) (i : nat) (m : Movie.t) :
  NoDup (map Movie.id new) ->
  nth_error new i = Some m ->
  find (fun m' => (Movie.id m' =? Movie.id m)%Z) new = Some m.
Proof.
  revert i. induction new as [|a new IH]; intros [|i] Hnd Hi; simpl in *;
    try discriminate.
  - injection Hi as ->. now rewrite Z.eqb_refl.
  - inversion Hnd as [|? ? Ha Hnd']; subst.
    destruct (Z.eqb_spec (Movie.id a) (Movie.id m)) as [E|_].
    + exfalso. apply Ha. rewrite E. apply in_map. eapply nth_error_In; eauto.
    + now apply (IH i).
Qed.

Lemma review_json_content (l : list Review.t) (x : Z) :
  map review_json (filter (fun r => (Review.movie_id r =? x)%Z) l)
  = map content_json
      (filter (fun c => (snd c =? x)%Z) (map review_content l)).
Proof.
  induction l as [|r l IH]; simpl; [reflexivity|].
  destruct (Review.movie_id r =? x)%Z; simpl; now rewrite IH.
Qed.

Lemma filter_none {A} (f : A -> bool) (l : list A) :
  Forall (fun a => f a = false) l -> filter f l = [].
Proof.
  induction 1 as [|a l Ha _ IH]; simpl; [reflexivity|]. now rewrite Ha.
Qed.

(** Among the review rows of movies with distinct keys, the ones that
    refer to one movie are its own two. *)
Lemma summary_rows_of (new : list Movie.t) (ps : list Processed) (i : nat)
  (m : Movie.t) (p : Processed) :
  NoDup (map Movie.id new) ->
  nth_error new i = Some m ->
  nth_error ps i = Some p ->
  filter (fun c => (snd c =? Movie.id m)%Z)
    (flat_map (fun mp => summary_rows (Movie.id (fst mp)) (snd mp))
       (combine new ps))
  = summary_rows (Movie.id m) p.
Proof.
  revert i ps. induction new as [|a new IH]; intros [|i] [|q ps] Hnd Hm Hp;
    simpl in *; try discriminate.
  - injection Hm as ->. injection Hp as ->. rewrite !Z.eqb_refl.
    inversion Hnd as [|? ? Ha _]; subst. unfold summary_rows. do 2 f_equal.
    apply filter_none. apply Forall_forall. intros c Hc.
    apply in_flat_map in Hc. destruct Hc as ([m' p'] & Hin & Hc).
    apply in_combine_l in Hin. simpl in Hc.
    apply Z.eqb_neq. intros E. apply Ha. rewrite <- E.
    destruct Hc as [<-|[<-|[]]]; simpl; now apply in_map.
  - inversion Hnd as [|? ? Ha Hnd']; subst.
    destruct (Z.eqb_spec (Movie.id a) (Movie.id m)) as [E|_].
    + exfalso. apply Ha. rewrite E. apply in_map. eapply nth_error_In; eauto.
    + now apply (IH i ps).
Qed.

(** [get_movie] on a store whose last movie rows [new] have distinct keys
    and own the last review rows. *)
Lemma read_back (w' : World) (ms new : list Movie.t) (rs newr : list Review.t)
  (ps : list Processed) (i : nat) (m : Movie.t) (p : Processed) :
  store w' = {| movies := Some (ms ++ new); reviews := Some (rs ++ newr) |} ->
  NoDup (map Movie.id new) ->
  ~ In (Movie.id m) (map Movie.id ms) ->
  Forall (fun r => In (Review.movie_id r) (map Movie.id ms)) rs ->
  map review_content newr
    = flat_map (fun mp => summary_rows (Movie.id (fst mp)) (snd mp))
        (combine new ps) ->
  nth_error new i = Some m ->
  nth_error ps i = Some p ->
  fst (get_movie (Movie.id m) w') =
  Ok (VDict [("movie", movie_json m);
             ("reviews",
              VList [VDict [("classification", VStr "긍정");
                            ("ratio", VFloat (positive_ratio p));
                            ("summary", VStr (positive_summary p))];
                     VDict [("classification", VStr "부정");
                            ("ratio", VFloat (negative_ratio p));
                            ("summary", VStr (negative_summary p))]])]).
Proof.
  intros Hs Hnd Hfresh Href Hc Hnm Hnp.
  unfold get_movie, SessionLocal, query_movies, query_reviews, get_store,
    close, ret, raise, Db.bind; simpl. rewrite Hs; simpl.
  rewrite app_nil_r, (find_app_skip ms new _ Hfresh), (find_by_key new i m Hnd Hnm).
  simpl.
  rewrite app_nil_r, review_json_content, map_app, filter_app, Hc.
  rewrite (summary_rows_of new ps i m p Hnd Hnm Hnp).
  rewrite filter_none; [reflexivity|].
  apply Forall_forall. intros c Hin. apply in_map_iff in Hin.
  destruct Hin as (r & <- & Hin). simpl. apply Z.eqb_neq. intros E.
  apply Hfresh. rewrite <- E.
  rewrite Forall_forall in Href. exact (Href r Hin).
Qed.

Section ReadBack.

Context {okt : Okt}.

(** X8.  The import keeps the store consistent.  When the keys of each table
    are unique and every review row refers to a movie row before a
    successful import, the same holds after it. *)
Theorem import_keeps_consistent (w w' : World) (data : value)
  (items : list value) (ms : list Movie.t) (rs : list Review.t) :
  movies (store w) = Some ms ->
  reviews (store w) = Some rs ->
  data_file w = Parsed data ->
  iter data = Ok items ->
  consistent ms rs ->
  load_and_process_data w = (Ok tt, w') ->
  exists ms' rs',
    movies (store w') = Some ms' /\
    reviews (store w') = Some rs' /\
    consistent ms' rs'.
Proof.
  intros Hm Hr Hfile Hiter (Hnm & Hnr & Href) Hload.
  destruct (load_rows w w' data items ms rs Hm Hr Hfile Hiter Hload)
    as (new & ps & newr & -> & _ & _ & Him & Hir & Hc).
  exists (ms ++ new), (rs ++ newr). simpl. split; [reflexivity|].
  split; [reflexivity|]. unfold consistent. rewrite !map_app.
  split; [|split].
  - apply NoDup_app; [exact Hnm | rewrite Him; apply ids_from_NoDup|].
    intros x Hx Hx'. rewrite Him in Hx'. apply ids_from_In in Hx'.
    apply max_id_ge in Hx. lia.
  - apply NoDup_app; [exact Hnr | rewrite Hir; apply ids_from_NoDup|].
    intros x Hx Hx'. rewrite Hir in Hx'. apply ids_from_In in Hx'.
    apply max_id_ge in Hx. lia.
  - apply Forall_app. split.
    + eapply Forall_impl; [|exact Href]. intros r Hin. simpl in Hin.
      apply in_or_app. now left.
    + apply Forall_forall. intros r Hin. apply in_or_app. right.
      assert (Hcr : In (review_content r) (map review_content newr))
        by now apply in_map.
      rewrite Hc in Hcr. apply in_flat_map in Hcr.
      destruct Hcr as ([m p] & Hmp & Hcr). apply in_combine_l in Hmp.
      simpl in Hcr. unfold review_content in Hcr.
      destruct Hcr as [E|[E|[]]]; injection E as _ _ _ <-; now apply in_map.
Qed.

(** X9.  Each imported movie can be read back.  Take a consistent store
    with room for the new rowids and a data file whose records have
    metadata of the column types.  After a successful import, [get_movie]
    on the key given to the [i]-th record of the data file, the [i+1]-th
    after the largest key in the table, returns a movie that holds the
    metadata of that record, with exactly two summaries: the positive then
    the negative ratio and summary of [process_movie_data] on that
    record. *)
Theorem get_movie_after_import (w w' : World) (data : value)
  (items : list value) (ms : list Movie.t) (rs : list Review.t)
  (i : nat) (item : value) :
  movies (store w) = Some ms ->
  reviews (store w) = Some rs ->
  data_file w = Parsed data ->
  iter data = Ok items ->
  Forall (fun item => well_typed item = true) items ->
  rowids_left (map Movie.id ms) (length items) ->
  rowids_left (map Review.id rs) (2 * length items) ->
  consistent ms rs ->
  load_and_process_data w = (Ok tt, w') ->
  nth_error items i = Some item ->
  exists m p,
    holds_metadata item m /\
    processed_as item p /\
    Movie.id m = (max_id (map Movie.id ms) + Z.of_nat (S i))%Z /\
    fst (get_movie (Movie.id m) w') =
    Ok (VDict [("movie", movie_json m);
               ("reviews",
                VList [VDict [("classification", VStr "긍정");
                              ("ratio", VFloat (positive_ratio p));
                              ("summary", VStr (positive_summary p))];
                       VDict [("classification", VStr "부정");
                              ("ratio", VFloat (negative_ratio p));
                              ("summary", VStr (negative_summary p))]])]).
Proof.
  intros Hm Hr Hfile Hiter Htyped _ _ (Hnm & Hnr & Href) Hload Hi.
  destruct (load_rows w w' data items ms rs Hm Hr Hfile Hiter Hload)
    as (new & ps & newr & -> & Hmm & Hps & Him & Hir & Hc).
  destruct (Forall2_nth_error _ _ _ _ _ Hmm Hi) as (m & Hnm' & Hmatch).
  destruct (Forall2_nth_error _ _ _ _ _ Hps Hi) as (p & Hnp & Hproc).
  assert (Hlt : i < length items).
  { apply nth_error_Some. congruence. }
  assert (Hid : Movie.id m = (max_id (map Movie.id ms) + Z.of_nat (S i))%Z).
  { pose proof (map_nth_error Movie.id _ _ Hnm') as H.
    rewrite Him, (ids_from_nth _ _ _ Hlt) in H. congruence. }
  assert (Hnd : NoDup (map Movie.id new)).
  { rewrite Him. apply ids_from_NoDup. }
  assert (Hfresh : ~ In (Movie.id m) (map Movie.id ms)).
  { intros Hin. apply max_id_ge in Hin. lia. }
  assert (Hti : well_typed item = true).
  { rewrite Forall_forall in Htyped. apply Htyped.
    eapply nth_error_In; eauto. }
  exists m, p. split; [exact (movie_matches_typed item m Hti Hmatch)|].
  split; [exact Hproc|]. split; [exact Hid|].
  apply (read_back _ ms new rs newr ps i m p); auto.
Qed.

End ReadBack.

(* ================================================================== *)
(** * The first start-up *)
(* ================================================================== *)

Section FirstStart.

Context {okt : Okt}.

Lemma main_load (w w' : World) :
  main w = (Ok tt, w') ->
  load_and_process_data (snd (create_tables w)) = (Ok tt, w').
Proof.
  unfold main. unfold Db.bind at 1.
  destruct (create_tables_store w) as (_ & _ & Hok).
  destruct (create_tables w) as [[[]|e] w1]; simpl in *; [auto | discriminate].
Qed.

Lemma ids_from_zero_nth (n i : nat) (x : Z) :
  nth_error (ids_from 0 n) i = Some x -> x = Z.of_nat (S i).
Proof.
  intros H. assert (Hlt : i < n).
  { rewrite <- (ids_from_length 0 n). apply nth_error_Some. congruence. }
  rewrite (ids_from_nth 0 n i Hlt) in H. injection H as <-. lia.
Qed.

(** X10.  The first start-up, on a database without tables, with a data
    file whose records have metadata of the column types.  When it
    succeeds, the movies are numbered 1, 2, ... in the order of the data
    file: [get_movies] returns exactly one entry per record, the [i]-th
    with id [i + 1] and the title and poster of the [i]-th record, and
    [get_movie (i + 1)] returns the metadata of that record with the
    positive and the negative ratio and summary of [process_movie_data] on
    it. *)
Theorem first_startup_round_trip (w w' : World) (data : value)
  (items : list value) :
  movies (store w) = None ->
  reviews (store w) = None ->
  data_file w = Parsed data ->
  iter data = Ok items ->
  Forall (fun item => well_typed item = true) items ->
  rowids_left [] (2 * length items) ->
  main w = (Ok tt, w') ->
  exists entries,
    fst (get_movies w') = Ok (VList entries) /\
    length entries = length items /\
    forall i item,
      nth_error items i = Some item ->
      exists m p,
        holds_metadata item m /\
        processed_as item p /\
        Movie.id m = Z.of_nat (S i) /\
        nth_error entries i =
          Some (VDict [("id", VInt (Z.of_nat (S i)));
                       ("title", Movie.title m);
                       ("poster_url", Movie.poster_url m)]) /\
        fst (get_movie (Z.of_nat (S i)) w') =
        Ok (VDict [("movie", movie_json m);
                   ("reviews",
                    VList [VDict [("classification", VStr "긍정");
                                  ("ratio", VFloat (positive_ratio p));
                                  ("summary", VStr (positive_summary p))];
                           VDict [("classification", VStr "부정");
                                  ("ratio", VFloat (negative_ratio p));
                                  ("summary", VStr (negative_summary p))]])]).
Proof.
  intros Hm Hr Hfile Hiter Htyped _ Hmain.
  apply main_load in Hmain.
  destruct (create_tables_store w) as (Hs & Hf & _).
  rewrite Hm, Hr in Hs.
  set (w1 := snd (create_tables w)) in *.
  assert (Hm1 : movies (store w1) = Some []) by now rewrite Hs.
  assert (Hr1 : reviews (store w1) = Some []) by now rewrite Hs.
  assert (Hf1 : data_file w1 = Parsed data) by congruence.
  destruct (load_rows w1 w' data items [] [] Hm1 Hr1 Hf1 Hiter Hmain)
    as (new & ps & newr & Hw' & Hmm & Hps & Him & _ & Hc).
  change (max_id (map Movie.id [])) with 0%Z in Him.
  assert (Hnd : NoDup (map Movie.id new))
    by (rewrite Him; apply ids_from_NoDup).
  exists (map movie_entry new). split; [|split].
  - rewrite Hw'.
    unfold get_movies, SessionLocal, query_movies, get_store, close, ret,
      Db.bind; simpl. now rewrite app_nil_r.
  - rewrite length_map. symmetry. exact (Forall2_length Hmm).
  - intros i item Hi.
    destruct (Forall2_nth_error _ _ _ _ _ Hmm Hi) as (m & Hnm & Hmatch).
    destruct (Forall2_nth_error _ _ _ _ _ Hps Hi) as (p & Hnp & Hproc).
    assert (Hid : Movie.id m = Z.of_nat (S i)).
    { apply (ids_from_zero_nth (length items) i).
      rewrite <- Him. now apply map_nth_error. }
    assert (Hti : well_typed item = true).
    { rewrite Forall_forall in Htyped. apply Htyped.
      eapply nth_error_In; eauto. }
    exists m, p. split; [exact (movie_matches_typed item m Hti Hmatch)|].
    split; [exact Hproc|].
    split; [exact Hid|]. split.
    + rewrite nth_error_map, Hnm. simpl. unfold movie_entry. now rewrite Hid.
    + rewrite <- Hid.
      apply (read_back w' [] new [] newr ps i m p); auto.
      now rewrite Hw'.
Qed.

End FirstStart.

Lemma first_startup_round_trip_witness :
  exists entries,
    fst (get_movies Demo.after_import) = Ok (VList entries) /\
    length entries = length [Demo.movie "기생충" [Demo.review "긍정" "연기 좋다";
                                                 Demo.review "부정" "음악 지루하다"]] /\
    forall i item,
      nth_error [Demo.movie "기생충" [Demo.review "긍정" "연기 좋다";
                                     Demo.review "부정" "음악 지루하다"]] i = Some item ->
      exists m p,
        holds_metadata item m /\
        @processed_as Demo.okt item p /\
        Movie.id m = Z.of_nat (S i) /\
        nth_error entries i =
          Some (VDict [("id", VInt (Z.of_nat (S i)));
                       ("title", Movie.title m);
                       ("poster_url", Movie.poster_url m)]) /\
        fst (get_movie (Z.of_nat (S i)) Demo.after_import) =
        Ok (VDict [("movie", movie_json m);
                   ("reviews",
                    VList [VDict [("classification", VStr "긍정");
                                  ("ratio", VFloat (positive_ratio p));
                                  ("summary", VStr (positive_summary p))];
                           VDict [("classification", VStr "부정");
                                  ("ratio", VFloat (negative_ratio p));
                                  ("summary", VStr (negative_summary p))]])]).
Proof.
  apply (@first_startup_round_trip Demo.okt (Demo.fresh Demo.sample)
           Demo.after_import Demo.sample); vm_compute; try reflexivity.
  repeat constructor.
Defined.

Lemma consistent_after_import :
  consistent [Demo.stored_movie] Demo.stored_reviews.
Proof.
  unfold consistent, Demo.stored_reviews. simpl.
  repeat split; repeat constructor; simpl; intuition discriminate.
Qed.

Lemma import_rows_witness :
  exists new_movies ps new_reviews,
    snd (@load_and_process_data Demo.okt Demo.after_import) =
      {| data_file := data_file Demo.after_import;
         store := {| movies := Some ([Demo.stored_movie] ++ new_movies);
                     reviews := Some (Demo.stored_reviews ++ new_reviews) |};
         open_sessions := open_sessions Demo.after_import;
         stdout := stdout Demo.after_import |} /\
    Forall2 holds_metadata
      [Demo.movie "기생충" [Demo.review "긍정" "연기 좋다";
                            Demo.review "부정" "음악 지루하다"]] new_movies /\
    Forall2 (@processed_as Demo.okt)
      [Demo.movie "기생충" [Demo.review "긍정" "연기 좋다";
                            Demo.review "부정" "음악 지루하다"]] ps /\
    map Movie.id new_movies = ids_from (max_id (map Movie.id [Demo.stored_movie])) 1 /\
    map Review.id new_reviews
      = ids_from (max_id (map Review.id Demo.stored_reviews)) 2 /\
    map review_content new_reviews
      = flat_map (fun mp => summary_rows (Movie.id (fst mp)) (snd mp))
          (combine new_movies ps).
Proof.
  apply (@import_rows Demo.okt Demo.after_import
           (snd (@load_and_process_data Demo.okt Demo.after_import)) Demo.sample);
    try (vm_compute; reflexivity).
  repeat constructor.
Defined.

Lemma import_keeps_consistent_witness :
  exists ms' rs',
    movies (store (snd (@load_and_process_data Demo.okt Demo.after_import)))
      = Some ms' /\
    reviews (store (snd (@load_and_process_data Demo.okt Demo.after_import)))
      = Some rs' /\
    consistent ms' rs'.
Proof.
  apply (@import_keeps_consistent Demo.okt Demo.after_import
           (snd (@load_and_process_data Demo.okt Demo.after_import)) Demo.sample
           [Demo.movie "기생충" [Demo.review "긍정" "연기 좋다";
                                 Demo.review "부정" "음악 지루하다"]]
           [Demo.stored_movie] Demo.stored_reviews);
    try (vm_compute; reflexivity).
  exact consistent_after_import.
Defined.

Lemma get_movie_after_import_witness :
  exists m p,
    holds_metadata (Demo.movie "기생충" [Demo.review "긍정" "연기 좋다";
                                        Demo.review "부정" "음악 지루하다"]) m /\
    @processed_as Demo.okt
      (Demo.movie "기생충" [Demo.review "긍정" "연기 좋다";
                            Demo.review "부정" "음악 지루하다"]) p /\
    Movie.id m = (max_id (map Movie.id [Demo.stored_movie]) + Z.of_nat 1)%Z /\
    fst (get_movie (Movie.id m)
           (snd (@load_and_process_data Demo.okt Demo.after_import))) =
    Ok (VDict [("movie", movie_json m);
               ("reviews",
                VList [VDict [("classification", VStr "긍정");
                              ("ratio", VFloat (positive_ratio p));
                              ("summary", VStr (positive_summary p))];
                       VDict [("classification", VStr "부정");
                              ("ratio", VFloat (negative_ratio p));
                              ("summary", VStr (negative_summary p))]])]).
Proof.
  apply (@get_movie_after_import Demo.okt Demo.after_import
           (snd (@load_and_process_data Demo.okt Demo.after_import)) Demo.sample
           [Demo.movie "기생충" [Demo.review "긍정" "연기 좋다";
                                 Demo.review "부정" "음악 지루하다"]]
           [Demo.stored_movie] Demo.stored_reviews 0);
    try (vm_compute; reflexivity).
  - repeat constructor.
  - exact consistent_after_import.
Defined.

(* ================================================================== *)
(** * The range of the ratios *)
(* ================================================================== *)

Section RatioRange.

Local Open Scope Z_scope.

Lemma round_half_even_le (n d K : Z) :
  0 < d -> n <= K * d -> Float.round_half_even n d <= K.
Proof.
  intros Hd Hn. unfold Float.round_half_even.
  pose proof (Z.div_mod n d ltac:(lia)) as Hdm.
  pose proof (Z.mod_pos_bound n d Hd) as Hr.
  set (q := n / d) in *. set (r := n mod d) in *.
  assert (Hq : q <= K) by nia.
  destruct (Z.compare_spec (2 * r) d) as [He | Hl | Hg];
    [destruct (Z.even q)| |]; nia.
Qed.

Lemma ulp_exponent_neg (a b : Z) :
  0 < a -> a <= b -> Float.ulp_exponent a b <= -52.
Proof.
  intros Ha Hab. unfold Float.ulp_exponent.
  rewrite Z.abs_eq by lia.
  pose proof (Z.log2_le_mono a b Hab) as Hl.
  destruct (Float.scaled a b (Z.log2 a - Z.log2 b - 53)) as [n d].
  destruct (2 ^ 53 * d <=? n); lia.
Qed.

Local Open Scope Q_scope.

Lemma binary64_le_one (a : Z) (b : positive) :
  (0 <= a)%Z -> (a <= Z.pos b)%Z -> Float.binary64 (a # b) <= 1.
Proof.
  intros Ha Hab. unfold Float.binary64. cbn [Qnum Qden].
  destruct (Z.eqb_spec a 0) as [->|Hnz]; [discriminate|].
  assert (Ha' : (0 < a)%Z) by lia.
  pose proof (ulp_exponent_neg a (Z.pos b) Ha' Hab) as He.
  set (e := Float.ulp_exponent a (Z.pos b)) in *.
  unfold Float.scaled. cbv beta iota zeta.
  rewrite Z.abs_eq by lia. rewrite Z.sgn_pos by lia.
  rewrite (Z.max_l 0 e) by lia. rewrite (Z.max_r 0 (- e)) by lia.
  rewrite Z.pow_0_r, !Z.mul_1_r, Z.mul_1_l.
  set (K := (2 ^ (- e))%Z).
  assert (HK : (0 < K)%Z) by (apply Z.pow_pos_nonneg; lia).
  pose proof (round_half_even_le (a * K) (Z.pos b) K ltac:(lia) ltac:(nia)) as Hm.
  rewrite Qred_correct. unfold Qle. cbn [Qnum Qden].
  rewrite Z2Pos.id by exact HK. lia.
Qed.

Lemma binary64_nonneg (x : Q) : 0 <= x -> 0 <= Float.binary64 x.
Proof.
  intros Hx. pose proof (binary64_close x Hx) as [L _]. lra.
Qed.

Lemma truediv_range (p t : nat) :
  (p <= t)%nat -> (0 < t)%nat -> 0 <= Float.truediv p t <= 1.
Proof.
  intros Hpt Ht. unfold Float.truediv. split.
  - apply binary64_nonneg, share_nonneg.
  - apply binary64_le_one; lia.
Qed.

Lemma truediv_zero (t : nat) : Float.truediv 0 t = 0.
Proof. reflexivity. Qed.

Lemma truediv_all (t : nat) : (0 < t)%nat -> Float.truediv t t = 1.
Proof.
  intros Ht. unfold Float.truediv.
  assert (Hx : 0 <= Z.of_nat t # Pos.of_nat t) by apply share_nonneg.
  assert (Hone : Z.of_nat t # Pos.of_nat t == 1).
  { unfold Qeq. simpl. lia. }
  (* the rounding of 1 is 1 *)
  assert (E : Float.binary64 (Z.of_nat t # Pos.of_nat t) == 1).
  { apply Qle_antisym.
    - apply binary64_le_one; lia.
    - unfold Float.binary64. cbn [Qnum Qden].
      set (a := Z.of_nat t). set (b := Z.pos (Pos.of_nat t)).
      assert (Hab : a = b) by (unfold a, b; lia).
      assert (Ha : (0 < a)%Z) by (unfold a; lia).
      destruct (Z.eqb_spec a 0) as [E0|_]; [lia|].
      pose proof (ulp_exponent_neg a b Ha ltac:(lia)) as He.
      pose proof (scaled_ulp a b Ha ltac:(lia)) as Hs. cbv zeta in Hs.
      set (e := Float.ulp_exponent a b) in *.
      unfold Float.scaled in *. cbv beta iota zeta.
      cbv beta iota delta [fst snd] in Hs.
      rewrite Z.abs_eq in * by lia. rewrite Z.sgn_pos by lia.
      rewrite (Z.max_l 0 e) in * by lia. rewrite (Z.max_r 0 (- e)) in * by lia.
      rewrite Z.pow_0_r, !Z.mul_1_r, Z.mul_1_l in *.
      set (K := (2 ^ (- e))%Z) in *.
      assert (HK : (0 < K)%Z) by (apply Z.pow_pos_nonneg; lia).
      rewrite <- Hab.
      assert (Hm : Float.round_half_even (a * K) a = K).
      { unfold Float.round_half_even.
        replace (a * K)%Z with (K * a)%Z by ring.
        rewrite Z.div_mul, Z.mod_mul by lia.
        destruct (Z.compare_spec (2 * 0) a); lia. }
      rewrite Hm, Qred_correct. unfold Qle. cbn [Qnum Qden].
      rewrite Z2Pos.id by exact HK. lia. }
  apply Qred_complete in E.
  unfold Float.binary64 in *. cbn [Qnum Qden] in *.
  destruct (Z.eqb_spec (Z.of_nat t) 0) as [E0|_]; [lia|].
  cbv zeta in *.
  destruct (Float.scaled _ _ _) as [n d].
  rewrite (Qred_complete _ _ (Qred_correct _)) in E. exact E.
Qed.

End RatioRange.

Section RatioFacts.

Context {okt : Okt}.

(** X11.  Each ratio [process_movie_data] returns is a number between 0
    and 1. *)
Theorem ratios_in_range (reviews : list value) (p : Processed) :
  aggregate reviews = Ok p ->
  (0 <= positive_ratio p <= 1)%Q /\ (0 <= negative_ratio p <= 1)%Q.
Proof.
  intros H. destruct (aggregate_ok reviews p H) as (_ & _ & Hp & Hn).
  cbv zeta in Hp, Hn. rewrite Hp, Hn.
  set (np := length (filter (has_label "긍정") reviews)).
  set (nn := length (filter (has_label "부정") reviews)).
  destruct (Nat.ltb_spec 0 (np + nn)) as [Ht|Ht].
  - split; apply truediv_range; lia.
  - split; split; discriminate.
Qed.

(** X12.  When some review is labelled positive and none negative, the
    positive ratio is exactly 1, the negative ratio 0 and the negative
    summary empty; and the other way round. *)
Theorem one_sided_reviews (reviews : list value) (p : Processed) :
  aggregate reviews = Ok p ->
  (existsb (has_label "긍정") reviews = true ->
   existsb (has_label "부정") reviews = false ->
   positive_ratio p = 1%Q /\ negative_ratio p = 0%Q /\ negative_summary p = "") /\
  (existsb (has_label "부정") reviews = true ->
   existsb (has_label "긍정") reviews = false ->
   negative_ratio p = 1%Q /\ positive_ratio p = 0%Q /\ positive_summary p = "").
Proof.
  intros H. destruct (aggregate_ok reviews p H) as (Sp & Sn & Hp & Hn).
  cbv zeta in *. rewrite !filter_length_existsb.
  set (fp := filter (has_label "긍정") reviews) in *.
  set (fn := filter (has_label "부정") reviews) in *.
  split; intros H1 H2; apply Nat.ltb_lt in H1; apply Nat.ltb_ge in H2.
  - assert (E : fn = []) by (destruct fn; simpl in *; [reflexivity | lia]).
    rewrite E in *. simpl in *. rewrite Nat.add_0_r in Hp, Hn.
    destruct (Nat.ltb_spec 0 (length fp)); [|lia].
    rewrite Hp, Hn, truediv_all by lia. repeat split.
    unfold get_top_words, top_words, Counter.most_common in Sn. simpl in Sn.
    congruence.
  - assert (E : fp = []) by (destruct fp; simpl in *; [reflexivity | lia]).
    rewrite E in *. simpl in *.
    destruct (Nat.ltb_spec 0 (length fn)); [|lia].
    rewrite Hp, Hn, truediv_all by lia. repeat split.
    unfold get_top_words, top_words, Counter.most_common in Sp. simpl in Sp.
    congruence.
Qed.

Lemma filter_length_perm {A} (f : A -> bool) (l l' : list A) :
  Permutation l l' -> length (filter f l) = length (filter f l').
Proof.
  induction 1 as [|x l l' _ IH|x y l|l l' l'' _ IH1 _ IH2]; simpl.
  - reflexivity.
  - destruct (f x); simpl; now rewrite IH.
  - destruct (f x), (f y); reflexivity.
  - now rewrite IH1.
Qed.

(** X13.  The ratios do not depend on the order of the reviews: two lists
    with the same reviews in different orders, both aggregated without
    error, get the same ratios. *)
Theorem ratios_order_independent (rs1 rs2 : list value) (p1 p2 : Processed) :
  Permutation rs1 rs2 ->
  aggregate rs1 = Ok p1 ->
  aggregate rs2 = Ok p2 ->
  positive_ratio p1 = positive_ratio p2 /\
  negative_ratio p1 = negative_ratio p2.
Proof.
  intros Hperm H1 H2.
  destruct (aggregate_ok rs1 p1 H1) as (_ & _ & Hp1 & Hn1).
  destruct (aggregate_ok rs2 p2 H2) as (_ & _ & Hp2 & Hn2).
  cbv zeta in *.
  rewrite Hp1, Hp2, Hn1, Hn2.
  rewrite !(filter_length_perm _ rs1 rs2 Hperm). split; reflexivity.
Qed.

End RatioFacts.

Lemma ratios_in_range_witness :
  let p := {| positive_summary := "좋다, 영화, 연기";
              negative_summary := "영화, 지루하다";
              positive_ratio := (6004799503160661 # 9007199254740992)%Q;
              negative_ratio := (6004799503160661 # 18014398509481984)%Q |} in
  (0 <= positive_ratio p <= 1)%Q /\ (0 <= negative_ratio p <= 1)%Q.
Proof.
  refine (@ratios_in_range Demo.okt
            [Demo.review "긍정" "영화 좋다"; Demo.review "중립" "음악";
             Demo.review "부정" "영화 지루하다"; Demo.review "긍정" "연기 좋다"]
            _ _).
  vm_compute. reflexivity.
Defined.

Lemma one_sided_reviews_witness :
  let p := {| positive_summary := "리뷰, 영화, 좋다"; negative_summary := "";
              positive_ratio := 1; negative_ratio := 0 |} in
  positive_ratio p = 1%Q /\ negative_ratio p = 0%Q /\ negative_summary p = "".
Proof.
  refine (proj1 (@one_sided_reviews Demo.okt
                   [Demo.review "긍정" "영화 리뷰"; Demo.review "긍정" "리뷰 좋다"]
                   _ _) _ _);
    vm_compute; reflexivity.
Defined.

Lemma ratios_order_independent_witness :
  let p1 := {| positive_summary := "영화"; negative_summary := "음악, 연기";
               positive_ratio := (6004799503160661 # 18014398509481984)%Q;
               negative_ratio := (6004799503160661 # 9007199254740992)%Q |} in
  let p2 := {| positive_summary := "영화"; negative_summary := "연기, 음악";
               positive_ratio := (6004799503160661 # 18014398509481984)%Q;
               negative_ratio := (6004799503160661 # 9007199254740992)%Q |} in
  positive_ratio p1 = positive_ratio p2 /\ negative_ratio p1 = negative_ratio p2.
Proof.
  refine (@ratios_order_independent Demo.okt
            [Demo.review "긍정" "영화"; Demo.review "부정" "음악"; Demo.review "부정" "연기"]
            [Demo.review "부정" "연기"; Demo.review "긍정" "영화"; Demo.review "부정" "음악"]
            _ _ _ _ _).
  - apply Permutation_sym, Permutation_cons_append.
  - vm_compute. reflexivity.
  - vm_compute. reflexivity.
Defined.

(* ================================================================== *)
(** * The words of a summary *)
(* ================================================================== *)

Section SummaryWords.

Context {okt : Okt}.

Lemma kept_pos_tags (tag : string) :
  kept_pos tag = true -> tag = "Noun" \/ tag = "Adjective" \/ tag = "Verb".
Proof.
  unfold kept_pos. simpl.
  destruct (String.eqb_spec tag "Noun"); [auto|].
  destruct (String.eqb_spec tag "Adjective"); [auto|].
  destruct (String.eqb_spec tag "Verb"); [auto|]. discriminate.
Qed.

Lemma review_tokens_In (review : value) (ws : list string) (w : string) :
  review_tokens review = Ok ws -> In w ws ->
  exists text tokens tag,
    getitem review "리뷰내용" = Ok (VStr text) /\
    okt_pos (re_sub_nonword text) = Ok tokens /\
    In (w, tag) tokens /\
    (tag = "Noun" \/ tag = "Adjective" \/ tag = "Verb").
Proof.
  unfold review_tokens. destruct (getitem review "리뷰내용") as [t|e]; [|discriminate].
  simpl. destruct t; try discriminate. simpl.
  destruct (okt_pos (re_sub_nonword s)) as [tokens|e] eqn:E; [|discriminate].
  simpl. intros H Hin. injection H as <-.
  apply in_map_iff in Hin. destruct Hin as ([w' tag] & <- & Hin).
  apply filter_In in Hin. destruct Hin as [Hin Hk]. simpl in *.
  exists s, tokens, tag. repeat split; auto using kept_pos_tags.
Qed.

Lemma extend_all_In (reviews : list value) (acc stream : list string)
  (w : string) :
  extend_all acc reviews = Ok stream -> In w stream ->
  In w acc \/
  exists review ws,
    In review reviews /\ review_tokens review = Ok ws /\ In w ws.
Proof.
  revert acc. induction reviews as [|r rs IH]; intros acc H Hin.
  - simpl in H. injection H as <-. now left.
  - rewrite extend_all_step in H.
    destruct (review_tokens r) as [ws|e] eqn:E; [|discriminate]. simpl in H.
    destruct (IH _ H Hin) as [Hacc|(review & ws' & Hr & Ht & Hw)].
    + apply in_app_or in Hacc. destruct Hacc as [Hacc|Hacc]; [now left|].
      right. exists r, ws. simpl. auto.
    + right. exists review, ws'. simpl. auto.
Qed.

(** X14.  Every word of a summary is a word the analyser found in the text
    of one of the reviews and tagged as a noun, an adjective or a verb. *)
Theorem summary_words_are_kept (reviews : list value) (n : Z)
  (top : list string) (w : string) :
  top_words reviews n = Ok top ->
  In w top ->
  exists review text tokens tag,
    In review reviews /\
    getitem review "리뷰내용" = Ok (VStr text) /\
    okt_pos (re_sub_nonword text) = Ok tokens /\
    In (w, tag) tokens /\
    (tag = "Noun" \/ tag = "Adjective" \/ tag = "Verb").
Proof.
  unfold top_words. intros H Hin.
  destruct (extend_all [] reviews) as [stream|e] eqn:E; [|discriminate].
  simpl in H. injection H as <-.
  destruct (most_common_ranked stream _ n (counts_of_list stream))
    as (_ & _ & Hsub & _).
  apply Hsub in Hin.
  destruct (extend_all_In reviews [] stream w E Hin)
    as [[]|(review & ws & Hr & Ht & Hw)].
  destruct (review_tokens_In review ws w Ht Hw)
    as (text & tokens & tag & H1 & H2 & H3 & H4).
  exists review, text, tokens, tag. auto.
Qed.

Lemma extend_all_unkept (reviews : list value) (acc : list string) :
  Forall (fun review => review_tokens review = Ok []) reviews ->
  extend_all acc reviews = Ok acc.
Proof.
  induction 1 as [|r rs Hr _ IH]; [reflexivity|].
  rewrite extend_all_step, Hr. simpl. now rewrite app_nil_r.
Qed.

(** X15.  Reviews in which the analyser finds no noun, adjective or verb
    give the empty summary, whatever [n]. *)
Theorem unkept_reviews_empty_summary (reviews : list value) (n : Z) :
  Forall (fun review =>
            exists text tokens,
              getitem review "리뷰내용" = Ok (VStr text) /\
              okt_pos (re_sub_nonword text) = Ok tokens /\
              forallb (fun wp => negb (kept_pos (snd wp))) tokens = true)
         reviews ->
  get_top_words reviews n = Ok "".
Proof.
  intros H.
  assert (H' : Forall (fun review => review_tokens review = Ok []) reviews).
  { eapply Forall_impl; [|exact H]. intros r (text & tokens & H1 & H2 & H3).
    unfold review_tokens. rewrite H1. simpl. rewrite H2. simpl. f_equal.
    clear H2. induction tokens as [|[w tag] tokens IH]; [reflexivity|].
    simpl in *. apply andb_true_iff in H3. destruct H3 as [Hk H3].
    apply negb_true_iff in Hk. rewrite Hk. now apply IH. }
  unfold get_top_words, top_words.
  rewrite (extend_all_unkept reviews [] H'). simpl.
  unfold Counter.most_common. simpl. now rewrite firstn_nil.
Qed.

(** X16.  The sentiment of every review is read before any text.  A review
    without the sentiment field, after reviews that have it, makes
    [process_movie_data] raise [KeyError('감정')], whatever its label would
    have been and whatever the texts of the other reviews are. *)
Theorem missing_sentiment_raises (movie_data : value)
  (good rest : list value) (d : list (string * value)) :
  getitem movie_data "리뷰" = Ok (VList (good ++ VDict d :: rest)) ->
  Forall (fun r => is_ok (getitem r "감정") = true) good ->
  lookup "감정" d = None ->
  process_movie_data movie_data = Raise (KeyError "감정").
Proof.
  intros Hf Hgood Hd. unfold process_movie_data. rewrite Hf. simpl.
  unfold aggregate.
  assert (E : reviews_with "긍정" (good ++ VDict d :: rest)
              = Raise (KeyError "감정")).
  { clear Hf. induction Hgood as [|r good Hr _ IH]; simpl.
    - now rewrite Hd.
    - destruct (getitem r "감정"); [|discriminate]. simpl. now rewrite IH. }
  now rewrite E.
Qed.

(** X17.  A text that is not a string is not analysed.  A review labelled
    positive or negative whose text field holds anything but a [str], a
    JSON [null] for one, makes the import fail with nothing stored; the
    exception raised at that review is the [TypeError] of [re.sub]. *)
Theorem text_not_a_string_aborts_import
  (w : World) (data movie_data field review text : value)
  (movies reviews : list value) :
  data_file w = Parsed data ->
  iter data = Ok movies ->
  In movie_data movies ->
  getitem movie_data "리뷰" = Ok field ->
  iter field = Ok reviews ->
  In review reviews ->
  counted review = true ->
  getitem review "리뷰내용" = Ok text ->
  (forall s, text <> VStr s) ->
  (exists e, load_and_process_data w = (Raise e, with_session w)) /\
  (forall good rest ws n,
     extend_all [] good = Ok ws ->
     get_top_words (good ++ review :: rest) n
     = Raise (TypeError "expected string or bytes-like object")).
Proof.
  intros Hfile Hiter Hin Hf Hi Hr Hc Ht Hns.
  assert (Hbad : review_tokens review
                 = Raise (TypeError "expected string or bytes-like object")).
  { unfold review_tokens. rewrite Ht. simpl.
    destruct text; try reflexivity. now destruct (Hns s). }
  split.
  - apply (load_aborts w data movie_data movies Hfile Hiter Hin).
    apply (process_movie_data_raises movie_data field review reviews); auto.
    now rewrite Hbad.
  - intros good rest ws n Hgood.
    exact (get_top_words_first ws good rest _ _ n Hgood Hbad).
Qed.

End SummaryWords.

Lemma summary_words_are_kept_witness :
  exists review text tokens tag,
    In review [Demo.review "긍정" "영화, 정말 좋다!"; Demo.review "긍정" "연기 너무 좋다"] /\
    getitem review "리뷰내용" = Ok (VStr text) /\
    @okt_pos Demo.okt (@re_sub_nonword Demo.okt text) = Ok tokens /\
    In ("연기", tag) tokens /\
    (tag = "Noun" \/ tag = "Adjective" \/ tag = "Verb").
Proof.
  apply (@summary_words_are_kept Demo.okt
           [Demo.review "긍정" "영화, 정말 좋다!"; Demo.review "긍정" "연기 너무 좋다"]
           10 ["좋다"; "영화"; "연기"] "연기").
  - vm_compute. reflexivity.
  - simpl. auto.
Defined.

Lemma unkept_reviews_empty_summary_witness :
  @get_top_words Demo.okt
    [Demo.review "긍정" "정말 너무"; Demo.review "긍정" "첫, 두!"] 10 = Ok "".
Proof.
  apply (@unkept_reviews_empty_summary Demo.okt).
  repeat constructor.
  - exists "정말 너무", [("정말", "Adverb"); ("너무", "Adverb")].
    repeat split; reflexivity.
  - exists "첫, 두!", [("첫", "Modifier"); ("두", "Modifier")].
    repeat split; reflexivity.
Defined.

Lemma missing_sentiment_raises_witness :
  @process_movie_data Demo.okt
    (VDict [("리뷰", VList ([Demo.review "긍정" "ㅋㅋㅋ"]
                            ++ VDict [("리뷰내용", VStr "영화")]
                            :: [Demo.review "부정" "음악"]))])
  = Raise (KeyError "감정").
Proof.
  apply (@missing_sentiment_raises Demo.okt _ [Demo.review "긍정" "ㅋㅋㅋ"]
           [Demo.review "부정" "음악"] [("리뷰내용", VStr "영화")]).
  - reflexivity.
  - repeat constructor.
  - reflexivity.
Defined.

Lemma text_not_a_string_aborts_import_witness :
  let bad := VDict [("리뷰내용", VNone); ("감정", VStr "긍정")] in
  let data := VList [Demo.movie "괴물" [Demo.review "부정" "영화 지루하다"; bad]] in
  (exists e, @load_and_process_data Demo.okt (Demo.empty_tables data)
             = (Raise e, with_session (Demo.empty_tables data))) /\
  (forall good rest ws n,
     @extend_all Demo.okt [] good = Ok ws ->
     @get_top_words Demo.okt (good ++ bad :: rest) n
     = Raise (TypeError "expected string or bytes-like object")).
Proof.
  intros bad data.
  apply (@text_not_a_string_aborts_import Demo.okt (Demo.empty_tables data) data
           (Demo.movie "괴물" [Demo.review "부정" "영화 지루하다"; bad])
           (VList [Demo.review "부정" "영화 지루하다"; bad]) bad VNone
           [Demo.movie "괴물" [Demo.review "부정" "영화 지루하다"; bad]]
           [Demo.review "부정" "영화 지루하다"; bad]);
    try reflexivity; simpl; auto.
  intros s H. discriminate H.
Defined.
